(** * Orion: routing, fact store and reply fallback

    A shallow embedding of the core of the Orion assistant
    (core/memory.py, core/plugins.py, core/router.py, core/memory_bridge.py,
    core/admin.py, core/llm_path.py, core/context.py, skills/registry.py and
    the command part of core/runtime.py), followed by the properties
    established about it.

    Conventions of the embedding.
    - Text is [string]; the characters are taken in the ASCII range, so
      [lower], [title], [\s], [\w] and [\b] follow Python on ASCII text and
      leave every byte above 127 alone.
    - A Python exception is a value of [exn]; a call that may raise returns
      a [res].
    - A file on disk is described by what reading it gives (see
      [memory.disk_file]); [json.dumps] followed by [json.loads] is the
      identity on the documents written by the program.
    - External collaborators (the LLM session, the voice output, the code
      of the skills) act on an abstract external world [Ext]. *)

From Stdlib Require Import Ascii String Sorted.
From stdpp Require Import base option list strings gmap.

Local Open Scope string_scope.
Local Open Scope list_scope.

(** ** Exceptions and results *)

Inductive exn : Type :=
| FileNotFoundError
| JSONDecodeError
| ImportError
| AttributeError
| External (msg : string).   (* raised by a collaborator, with its text *)

(** [str(e)] (the two I/O errors in a short form) *)
Definition exn_str (e : exn) : string :=
  match e with
  | FileNotFoundError => "No such file or directory"
  | JSONDecodeError => "Expecting value"
  | ImportError => "No module named 'skills.'"
  | AttributeError => "module 'skills.registry' has no attribute 'registry'"
  | External msg => msg
  end.

Inductive res (A : Type) : Type :=
| Ok (a : A)
| Raise (e : exn).
Arguments Ok {A} a.
Arguments Raise {A} e.

Definition is_ok {A} (r : res A) : bool :=
  match r with Ok _ => true | Raise _ => false end.

(** ** Python text operations (on ASCII) *)

Module text.

Definition nl : ascii := "010"%char.
Definition dq : ascii := "034"%char.

Definition is_upper (c : ascii) : bool :=
  let n := nat_of_ascii c in (65 <=? n)%nat && (n <=? 90)%nat.
Definition is_lower (c : ascii) : bool :=
  let n := nat_of_ascii c in (97 <=? n)%nat && (n <=? 122)%nat.
Definition is_alpha (c : ascii) : bool := is_upper c || is_lower c.
Definition is_digit (c : ascii) : bool :=
  let n := nat_of_ascii c in (48 <=? n)%nat && (n <=? 57)%nat.
(** [\w] *)
Definition is_word (c : ascii) : bool :=
  is_alpha c || is_digit c || Ascii.eqb c "_"%char.
(** [str.isspace] and [\s]: tab, LF, VT, FF, CR, FS, GS, RS, US, space *)
Definition is_space (c : ascii) : bool :=
  let n := nat_of_ascii c in
  ((9 <=? n)%nat && (n <=? 13)%nat) || ((28 <=? n)%nat && (n <=? 32)%nat).

Definition lower_char (c : ascii) : ascii :=
  if is_upper c then ascii_of_nat (nat_of_ascii c + 32) else c.
Definition upper_char (c : ascii) : ascii :=
  if is_lower c then ascii_of_nat (nat_of_ascii c - 32) else c.

Fixpoint map_chars (f : ascii -> ascii) (s : string) : string :=
  match s with
  | EmptyString => EmptyString
  | String c s' => String (f c) (map_chars f s')
  end.

(** [s.lower()] *)
Definition lower (s : string) : string := map_chars lower_char s.

(** [s.replace(a, b)] for one-character [a] and [b] *)
Definition replace (a b : ascii) (s : string) : string :=
  map_chars (fun c => if Ascii.eqb c a then b else c) s.

(** [s.title()]: a letter that follows a letter is lowered, any other
    letter is raised; the rest is kept. *)
Fixpoint title_from (prev_cased : bool) (s : string) : string :=
  match s with
  | EmptyString => EmptyString
  | String c s' =>
      if is_alpha c
      then String (if prev_cased then lower_char c else upper_char c)
                  (title_from true s')
      else String c (title_from false s')
  end.
Definition title (s : string) : string := title_from false s.

Fixpoint lstrip_by (p : ascii -> bool) (s : string) : string :=
  match s with
  | EmptyString => EmptyString
  | String c s' => if p c then lstrip_by p s' else s
  end.

Fixpoint rstrip_by (p : ascii -> bool) (s : string) : string :=
  match s with
  | EmptyString => EmptyString
  | String c s' =>
      match rstrip_by p s' with
      | EmptyString => if p c then EmptyString else String c EmptyString
      | t => String c t
      end
  end.

(** [s.strip()] *)
Definition strip (s : string) : string := rstrip_by is_space (lstrip_by is_space s).

Fixpoint mem_char (c : ascii) (set : string) : bool :=
  match set with
  | EmptyString => false
  | String x set' => Ascii.eqb c x || mem_char c set'
  end.

(** [s.rstrip(chars)] *)
Definition rstrip_chars (chars : string) (s : string) : string :=
  rstrip_by (fun c => mem_char c chars) s.

(** [s.startswith(p)] *)
Fixpoint startswith (p s : string) : bool :=
  match p, s with
  | EmptyString, _ => true
  | String a p', String b s' => Ascii.eqb a b && startswith p' s'
  | String _ _, EmptyString => false
  end.

(** [needle in s] *)
Fixpoint contains (needle s : string) : bool :=
  startswith needle s ||
  match s with
  | EmptyString => false
  | String _ s' => contains needle s'
  end.

(** [sep.join(l)] *)
Fixpoint join (sep : string) (l : list string) : string :=
  match l with
  | [] => ""
  | [x] => x
  | x :: l' => x +:+ sep +:+ join sep l'
  end.

(** [s.split(sep)] for a one-character separator *)
Fixpoint split (sep : ascii) (s : string) : list string :=
  match s with
  | EmptyString => [""]
  | String c s' =>
      if Ascii.eqb c sep then "" :: split sep s'
      else match split sep s' with
           | [] => [String c ""]
           | w :: ws => String c w :: ws
           end
  end.

(** [s.split(sep, 1)]: the text before the first separator and, when there
    is one, the text after it *)
Fixpoint split1 (sep : ascii) (s : string) : string * option string :=
  match s with
  | EmptyString => ("", None)
  | String c s' =>
      if Ascii.eqb c sep then ("", Some s')
      else let '(a, b) := split1 sep s' in (String c a, b)
  end.

(** [s.split()]: the maximal runs of non-space characters *)
Fixpoint split_ws_from (cur : option string) (s : string) : list string :=
  match s with
  | EmptyString => match cur with Some w => [w] | None => [] end
  | String c s' =>
      if is_space c
      then match cur with
           | Some w => w :: split_ws_from None s'
           | None => split_ws_from None s'
           end
      else split_ws_from (Some (match cur with Some w => w +:+ String c "" | None => String c "" end)) s'
  end.
Definition split_ws (s : string) : list string := split_ws_from None s.

(** Python's truth value of a string *)
Definition truthy (s : string) : bool :=
  match s with EmptyString => false | _ => true end.

(** order of [str] values, by code point *)
Fixpoint ltb (a b : string) : bool :=
  match a, b with
  | _, EmptyString => false
  | EmptyString, String _ _ => true
  | String x a', String y b' =>
      if (nat_of_ascii x <? nat_of_ascii y)%nat then true
      else if (nat_of_ascii y <? nat_of_ascii x)%nat then false
      else ltb a' b'
  end.

End text.

(** ** Python dictionaries keyed by text, in insertion order *)

Module pydict.

Definition t (A : Type) : Type := list (string * A).

(** [d.get(k)] *)
Fixpoint get {A} (k : string) (d : t A) : option A :=
  match d with
  | [] => None
  | (k', v) :: d' => if String.eqb k' k then Some v else get k d'
  end.

(** [d[k] = v]: a present key keeps its place, a new key goes last *)
Fixpoint set {A} (k : string) (v : A) (d : t A) : t A :=
  match d with
  | [] => [(k, v)]
  | (k', v') :: d' =>
      if String.eqb k' k then (k, v) :: d' else (k', v') :: set k v d'
  end.

Definition keys {A} (d : t A) : list string := map fst d.

End pydict.

(** ** core/memory.py: the fact store *)

Module memory.

Definition MAX_CONVERSATIONS : nat := 500.

(** One conversation turn [{user?, bot?}]. *)
Record turn : Type := Turn { t_user : option string; t_bot : option string }.

(** The parsed document.  A section is [None] when its key is missing from
    the JSON object, which is what [setdefault] and [get(.., default)]
    look at. *)
Record document : Type := Doc {
  facts : option (pydict.t string);
  conversations : option (list turn)
}.

(** [{"facts": {}, "conversations": []}] *)
Definition empty_document : document := Doc (Some []) (Some []).

(** The file [memory.json], by what reading it gives. *)
Inductive disk_file : Type :=
| Missing                 (* no file at the path *)
| Blank                   (* text whose [strip()] is empty *)
| Malformed               (* text that [json.loads] rejects *)
| Stored (d : document).  (* text that [json.loads] turns into [d] *)

(** [Memory._read] *)
Definition _read (f : disk_file) : res document :=
  match f with
  | Missing => Raise FileNotFoundError
  | Blank => Ok empty_document
  | Malformed => Raise JSONDecodeError
  | Stored d => Ok d
  end.

(** [Memory._safe_write]: write a temporary file and rename it over
    [memory.json]. *)
Definition _safe_write (obj : document) (f : disk_file) : disk_file := Stored obj.

(** [Memory.__init__] *)
Definition __init__ (f : disk_file) : disk_file :=
  match f with
  | Missing => _safe_write empty_document f
  | _ =>
      match _read f with
      | Ok _ => f
      | Raise _ => _safe_write empty_document f
      end
  end.

(** [data.setdefault("facts", {})] *)
Definition facts_of (d : document) : pydict.t string := default [] (facts d).
(** [data.setdefault("conversations", [])] *)
Definition conversations_of (d : document) : list turn := default [] (conversations d).

(** [Memory.remember] *)
Definition remember (key value : string) (f : disk_file) : res disk_file :=
  match _read f with
  | Raise e => Raise e
  | Ok data =>
      let data' := Doc (Some (pydict.set key value (facts_of data))) (conversations data) in
      Ok (_safe_write data' f)
  end.

(** [Memory.recall] *)
Definition recall (key : string) (f : disk_file) : res (option string) :=
  match _read f with
  | Raise e => Raise e
  | Ok data => Ok (pydict.get key (facts_of data))
  end.

(** [Memory.facts_like] *)
Definition facts_like (needle : string) (f : disk_file) : res (list (string * string)) :=
  let needle := text.lower needle in
  match _read f with
  | Raise e => Raise e
  | Ok data =>
      Ok (List.filter
            (fun kv => text.contains needle (text.lower (fst kv))
                       || text.contains needle (text.lower (snd kv)))
            (facts_of data))
  end.

(** [conv[-MAX_CONVERSATIONS:]] *)
Definition last_n {A} (n : nat) (l : list A) : list A := drop (length l - n) l.

(** [Memory.append_conversation] *)
Definition append_conversation (user bot : option string) (f : disk_file) : res disk_file :=
  match _read f with
  | Raise e => Raise e
  | Ok data =>
      match user, bot with
      | None, None => Ok f
      | _, _ =>
          let conv := conversations_of data ++ [Turn user bot] in
          let conv :=
            if (MAX_CONVERSATIONS <? length conv)%nat
            then last_n MAX_CONVERSATIONS conv else conv in
          Ok (_safe_write (Doc (facts data) (Some conv)) f)
      end
  end.

(** A file that [_read] accepts. *)
Definition readable (f : disk_file) : bool := is_ok (_read f).

(** [l[start:]]: a negative [start] counts from the end, and a start
    outside the list is clipped to it *)
Definition slice_from {A} (start : Z) (l : list A) : list A :=
  let len := Z.of_nat (length l) in
  let i := if (start <? 0)%Z then Z.max (len + start) 0 else Z.min start len in
  drop (Z.to_nat i) l.

(** [Memory.recent]: [conversations[-n:]] *)
Definition recent (n : Z) (f : disk_file) : res (list turn) :=
  match _read f with
  | Raise e => Raise e
  | Ok data => Ok (slice_from (- n) (conversations_of data))
  end.

(** [Memory.dump] *)
Definition dump (f : disk_file) : res document := _read f.

End memory.

(** ** Regular expressions, as Python's [re] runs them

    A backtracking matcher: alternatives are tried left to right and
    repetitions are greedy, so the first match found is the one [re]
    reports, with the same groups. *)

Module re.

Inductive regex : Type :=
| Eps
| Chr (c : ascii)                       (* a literal character *)
| Class (p : ascii -> bool)             (* a character class *)
| Seq (r1 r2 : regex)
| Alt (r1 r2 : regex)
| Star (r : regex)                      (* r* *)
| Repeat (lo hi : nat) (r : regex)      (* r{lo,hi} *)
| Group (n : nat) (r : regex)           (* the n-th capturing group *)
| Bol                                   (* ^ *)
| Eol                                   (* $ *)
| WordB.                                (* \b *)

(** A position in the subject: the characters already passed (last one
    first), the characters to come, and the groups captured so far. *)
Record mstate : Type := MState {
  seen : list ascii;
  rest : list ascii;
  caps : list (nat * list ascii)
}.

Definition chr_eq (ic : bool) (c x : ascii) : bool :=
  if ic then Ascii.eqb (text.lower_char c) (text.lower_char x) else Ascii.eqb c x.

Definition class_has (ic : bool) (p : ascii -> bool) (x : ascii) : bool :=
  if ic then p x || p (text.lower_char x) || p (text.upper_char x) else p x.

Definition step1 (st : mstate) (x : ascii) (xs : list ascii) : mstate :=
  MState (x :: seen st) xs (caps st).

Definition at_word_boundary (st : mstate) : bool :=
  let before := match seen st with c :: _ => text.is_word c | [] => false end in
  let after := match rest st with c :: _ => text.is_word c | [] => false end in
  xorb before after.

Definition at_end (st : mstate) : bool :=
  match rest st with
  | [] => true
  | [c] => Ascii.eqb c text.nl
  | _ => false
  end.

Definition set_cap (n : nat) (start : mstate) (stop : mstate) : mstate :=
  let len := (length (seen stop) - length (seen start))%nat in
  MState (seen stop) (rest stop) ((n, rev (take len (seen stop))) :: caps stop).

(** [rmatch ic r k st]: match [r] at [st], then go on with [k]; [ic] is
    the flag [re.I]. *)
Fixpoint rmatch (ic : bool) (r : regex) (k : mstate -> option mstate)
    (st : mstate) {struct r} : option mstate :=
  match r with
  | Eps => k st
  | Chr c =>
      match rest st with
      | x :: xs => if chr_eq ic c x then k (step1 st x xs) else None
      | [] => None
      end
  | Class p =>
      match rest st with
      | x :: xs => if class_has ic p x then k (step1 st x xs) else None
      | [] => None
      end
  | Seq r1 r2 => rmatch ic r1 (rmatch ic r2 k) st
  | Alt r1 r2 =>
      match rmatch ic r1 k st with
      | Some e => Some e
      | None => rmatch ic r2 k st
      end
  | Star r' =>
      (fix loop (fuel : nat) (st : mstate) {struct fuel} : option mstate :=
         match fuel with
         | O => k st
         | S fuel' =>
             match rmatch ic r'
                     (fun st' =>
                        if (length (rest st') <? length (rest st))%nat
                        then loop fuel' st' else None) st with
             | Some e => Some e
             | None => k st
             end
         end) (length (rest st)) st
  | Repeat lo hi r' =>
      (fix loop (lo hi : nat) (st : mstate) {struct hi} : option mstate :=
         match hi with
         | O => if (lo =? 0)%nat then k st else None
         | S hi' =>
             match rmatch ic r' (loop (pred lo) hi') st with
             | Some e => Some e
             | None => if (lo =? 0)%nat then k st else None
             end
         end) lo hi st
  | Group n r' => rmatch ic r' (fun st' => k (set_cap n st st')) st
  | Bol => match seen st with [] => k st | _ => None end
  | Eol => if at_end st then k st else None
  | WordB => if at_word_boundary st then k st else None
  end.

(** A match object: where the match starts and the state where it ends. *)
Record rmatch_obj : Type := Match { m_start : mstate; m_end : mstate }.

Fixpoint search_from (ic : bool) (r : regex) (sn rs : list ascii) : option rmatch_obj :=
  let st := MState sn rs [] in
  match rmatch ic r Some st with
  | Some e => Some (Match st e)
  | None =>
      match rs with
      | [] => None
      | x :: rs' => search_from ic r (x :: sn) rs'
      end
  end.

(** [re.search] *)
Definition search (ic : bool) (r : regex) (s : string) : option rmatch_obj :=
  search_from ic r [] (list_ascii_of_string s).

(** [Pattern.fullmatch] *)
Definition fullmatch (ic : bool) (r : regex) (s : string) : option rmatch_obj :=
  let st := MState [] (list_ascii_of_string s) [] in
  match rmatch ic r (fun e => match rest e with [] => Some e | _ => None end) st with
  | Some e => Some (Match st e)
  | None => None
  end.

(** [m.group(n)] for a group that took part in the match *)
Definition group (n : nat) (m : rmatch_obj) : string :=
  match List.find (fun c => (fst c =? n)%nat) (caps (m_end m)) with
  | Some (_, cs) => string_of_list_ascii cs
  | None => ""
  end.

(** [re.sub(r, repl, s, count)]; [count = None] replaces every match. *)
Fixpoint sub_from (fuel : nat) (ic : bool) (r : regex) (repl : list ascii)
    (count : option nat) (sn rs : list ascii) : list ascii :=
  match fuel with
  | O => rs
  | S fuel' =>
      match count with
      | Some O => rs
      | _ =>
          let count' := match count with Some n => Some (pred n) | None => None end in
          match rmatch ic r Some (MState sn rs []) with
          | Some e =>
              if (length (rest e) <? length rs)%nat
              then repl ++ sub_from fuel' ic r repl count' (seen e) (rest e)
              else match rs with
                   | [] => repl
                   | x :: rs' => repl ++ x :: sub_from fuel' ic r repl count' (x :: sn) rs'
                   end
          | None =>
              match rs with
              | [] => []
              | x :: rs' => x :: sub_from fuel' ic r repl count (x :: sn) rs'
              end
          end
      end
  end.

Definition sub (ic : bool) (r : regex) (repl : string) (count : option nat)
    (s : string) : string :=
  let cs := list_ascii_of_string s in
  string_of_list_ascii
    (sub_from (S (length cs)) ic r (list_ascii_of_string repl) count [] cs).

(** *** Pattern syntax *)

(** a literal word *)
Fixpoint lit (s : string) : regex :=
  match s with
  | EmptyString => Eps
  | String c EmptyString => Chr c
  | String c s' => Seq (Chr c) (lit s')
  end.

(** [r1 r2 ... rn] *)
Fixpoint cat (rs : list regex) : regex :=
  match rs with
  | [] => Eps
  | [r] => r
  | r :: rs' => Seq r (cat rs')
  end.

(** [r1|r2|...|rn] *)
Fixpoint alt (rs : list regex) : regex :=
  match rs with
  | [] => Eps
  | [r] => r
  | r :: rs' => Alt r (alt rs')
  end.

Definition opt (r : regex) : regex := Alt r Eps.      (* r? *)
Definition plus (r : regex) : regex := Seq r (Star r). (* r+ *)
Definition space : regex := Class text.is_space.      (* \s *)
Definition dot : regex := Class (fun c => negb (Ascii.eqb c text.nl)). (* . *)
(** [re.escape(s)] used as a pattern *)
Definition escape (s : string) : regex := lit s.

End re.

(** ** core/plugins.py: skill discovery, enable state, primary router *)

Module plugins.

(** The file [skills/_enabled.json], by what reading it gives. *)
Inductive state_file : Type :=
| NoState                           (* no file *)
| BadState                          (* a file that [json.loads] rejects *)
| State (m : gmap string bool).     (* a file holding the mapping [m] *)

(** [_read_state] *)
Definition _read_state (sf : state_file) : gmap string bool :=
  match sf with
  | State m => m
  | NoState | BadState => ∅
  end.

(** [_write_state] *)
Definition _write_state (state : gmap string bool) (sf : state_file) : state_file :=
  State state.

(** [_is_enabled] *)
Definition _is_enabled (name : string) (state : gmap string bool) : bool :=
  default true (state !! name).

(** [set_enabled]: the confirmation text and the file afterwards *)
Definition set_enabled (name : string) (enabled : bool) (sf : state_file)
  : string * state_file :=
  let state := <[name := enabled]> (_read_state sf) in
  ((if enabled then "Enabled" else "Disabled") +:+ " skill '" +:+ name
     +:+ "'. Say 'skill reload' to apply.",
   _write_state state sf).

(** [re.sub(r"[^a-zA-Z0-9_]", "_", name).lower()] *)
Definition safe_re : re.regex := re.Class (fun c => negb (text.is_word c)).
Definition sanitize (name : string) : string :=
  text.lower (re.sub false safe_re "_" None name).

(** the text written by [scaffold] for the sanitized name [safe] *)
Definition template (safe : string) : string :=
  let q := String text.dq "" in
  let n := String text.nl "" in
  "# skills/" +:+ safe +:+ ".py" +:+ n +:+
  "NAME = " +:+ q +:+ safe +:+ q +:+ n +:+
  "DESCRIPTION = " +:+ q +:+ "Describe what " +:+ safe +:+ " does." +:+ q +:+ n +:+
  "TRIGGERS = [r" +:+ q +:+ "\\b" +:+ safe +:+ "\\b" +:+ q +:+ "]  # adjust as needed" +:+ n +:+
  n +:+
  "def run(query: str, context: dict) -> str:" +:+ n +:+
  "    # implement your logic here" +:+ n +:+
  "    return " +:+ q +:+ "Hello from " +:+ safe +:+ "!" +:+ q +:+ n.

Section with_ext.
Context {Ext : Type}.

(** What a skill's [run(query, context)] does: it may read and write the
    fact store handed to it in the context, act on the outside world, and
    return text or raise. *)
Definition skill_fn : Type :=
  string -> memory.disk_file -> Ext -> res string * memory.disk_file * Ext.

Record LoadedSkill : Type := {
  name : string;
  run : skill_fn;
  patterns : list re.regex;
  description : string
}.

(** The attributes of an imported skill module that [_load_one] reads.
    A trigger is [None] when [re.compile] rejects its text. *)
Record pymodule : Type := {
  mod_run : option skill_fn;                       (* a callable [run] *)
  mod_NAME : option string;
  mod_TRIGGERS : option (list (option re.regex));
  mod_DESCRIPTION : option string
}.

(** A file of the skills directory: its text and what importing it gives. *)
Record pyfile : Type := {
  source : string;
  imported : res pymodule
}.

(** The skills directory, by file name. *)
Local Abbreviation directory := (gmap string pyfile).

(** [Path.stem] of a name that ends in [.py] *)
Definition stem (file_name : string) : string :=
  if String.eqb file_name ".py" then file_name
  else String.substring 0 (String.length file_name - 3) file_name.

Definition ends_with_py (file_name : string) : bool :=
  (3 <=? String.length file_name)%nat
  && String.eqb (String.substring (String.length file_name - 3) 3 file_name) ".py".

(** [SKILLS_DIR.glob("*.py")], in the order the file system lists them *)
Definition glob_py (dir : directory) : list (string * pyfile) :=
  List.filter (fun e => ends_with_py (fst e)) (map_to_list dir).

(** [_iter_skill_modules]: the stems kept, each with its file *)
Definition _iter_skill_modules (dir : directory) : list (string * pyfile) :=
  omap (fun e =>
          let st := stem (fst e) in
          if text.startswith "_" st || String.eqb st "__init__" || String.eqb st "registry"
          then None else Some (st, snd e))
       (glob_py dir).

(** [_compile_triggers] *)
Definition _compile_triggers (triggers : list (option re.regex)) : list re.regex :=
  omap id triggers.

(** [_load_one], on the stem of the module and its file; the default
    name is [modname.split(".")[-1]] *)
Definition _load_one (m : string * pyfile) : option LoadedSkill :=
  match imported (snd m) with
  | Raise _ => None
  | Ok md =>
      match mod_run md with
      | None => None
      | Some r =>
          let nm := default (List.last (text.split "." (fst m)) "") (mod_NAME md) in
          Some {| name := nm;
                  run := r;
                  patterns := _compile_triggers (default [] (mod_TRIGGERS md));
                  description := default (nm +:+ " skill") (mod_DESCRIPTION md) |}
      end
  end.

(** the loop of [load_skills] *)
Fixpoint load_loop (state : gmap string bool) (mods : list (string * pyfile))
    (result : pydict.t LoadedSkill) : pydict.t LoadedSkill :=
  match mods with
  | [] => result
  | m :: mods' =>
      match _load_one m with
      | None => load_loop state mods' result
      | Some sk =>
          if _is_enabled (name sk) state
          then load_loop state mods' (pydict.set (name sk) sk result)
          else load_loop state mods' result
      end
  end.

(** [load_skills] *)
Definition load_skills (sf : state_file) (dir : directory) : pydict.t LoadedSkill :=
  load_loop (_read_state sf) (_iter_skill_modules dir) [].

(** [list_all] *)
Definition list_all (sf : state_file) (dir : directory) : list (string * bool * string) :=
  let state := _read_state sf in
  omap (fun m =>
          match _load_one m with
          | None => None
          | Some sk => Some (name sk, _is_enabled (name sk) state, description sk)
          end)
       (_iter_skill_modules dir).

(** [PluginRouter]: the skills and the flat rule list built from them *)
Record PluginRouter : Type := {
  pr_skills : pydict.t LoadedSkill;
  rules : list (string * re.regex)
}.

(** [PluginRouter.__init__] *)
Definition new_router (skills : pydict.t LoadedSkill) : PluginRouter :=
  {| pr_skills := skills;
     rules := flat_map (fun e => map (fun pat => (fst e, pat)) (patterns (snd e))) skills |}.

Fixpoint route_rules (skills : pydict.t LoadedSkill) (rules : list (string * re.regex))
    (s : string) : option LoadedSkill :=
  match rules with
  | [] => None
  | (nm, pat) :: rules' =>
      match re.search true pat s with
      | Some _ => pydict.get nm skills
      | None => route_rules skills rules' s
      end
  end.

(** [PluginRouter.route] *)
Definition route (r : PluginRouter) (s : string) : option LoadedSkill :=
  route_rules (pr_skills r) (rules r) s.

(** What importing the file written by [scaffold] gives: the name, the
    description, one trigger (a backslash, [b], the name, a backslash,
    [b]) and a [run] that returns the greeting.  The file [.py] written
    for an empty name has no importable module name. *)
Definition template_module (safe : string) : pymodule :=
  {| mod_run := Some (fun _ f e => (Ok ("Hello from " +:+ safe +:+ "!"), f, e));
     mod_NAME := Some safe;
     mod_TRIGGERS := Some [Some (re.cat [re.Chr "\"; re.Chr "b"; re.lit safe; re.Chr "\"; re.Chr "b"])];
     mod_DESCRIPTION := Some ("Describe what " +:+ safe +:+ " does.") |}.

(** [scaffold]: the name of the file ([path.name]) and the directory
    afterwards *)
Definition scaffold (nm : string) (dir : directory) : string * directory :=
  let safe := sanitize nm in
  let path := safe +:+ ".py" in
  match dir !! path with
  | Some _ => (path, dir)
  | None =>
      (path, <[path := {| source := template safe;
                          imported := if String.eqb safe "" then Raise ImportError
                                      else Ok (template_module safe) |}]> dir)
  end.

End with_ext.
Arguments skill_fn : clear implicits.
Arguments LoadedSkill : clear implicits.
Arguments pymodule : clear implicits.
Arguments pyfile : clear implicits.
Arguments PluginRouter : clear implicits.
Abbreviation directory Ext := (gmap string (pyfile Ext)) (only parsing).

End plugins.

(** ** core/context.py: the context and [say] *)

Module context.

Section with_ext.
Context {Ext : Type}.

(** The LLM session behind [ctx.llm] (core/llm.py): [stream] and [send]
    catch every failure of the backend themselves, so these two calls
    return; [reset] calls [_new_chat] outside any [try] and may raise. *)
Record LLM : Type := {
  stream : string -> Ext -> list string * Ext;
  send : string -> Ext -> string * Ext;
  reset : Ext -> res unit * Ext
}.

(** The voice output behind [ctx.tts]: [speak(text, voice_id)] may raise. *)
Record TTS : Type := {
  speak : string -> string -> Ext -> res unit * Ext
}.

(** The calls made while an utterance is handled, oldest first. *)
Inductive event : Type :=
| Print (s : string)                          (* console output *)
| Speak (s : string)                          (* [ctx.tts.speak] *)
| Append (user bot : option string)           (* [ctx.mem.append_conversation] *)
| LlmStream (s : string)
| LlmSend (s : string)
| LlmReset
| Route (s : string)                          (* [ctx.router.route] *)
| LegacyRoute (s : string)                    (* core.router.route *)
| SkillRun (name : string).                   (* [sk.run] *)

(** The context [Ctx] together with the files and the world it acts on. *)
Record state : Type := {
  llm : LLM;
  tts : TTS;
  voice_id : string;
  mem : memory.disk_file;                     (* the file behind [ctx.mem] *)
  skills : pydict.t (plugins.LoadedSkill Ext);
  router : plugins.PluginRouter Ext;
  wake : string;                              (* [ctx.wake.wake] *)
  enabled_json : plugins.state_file;          (* skills/_enabled.json *)
  skills_dir : plugins.directory Ext;
  ext : Ext;
  out : list event
}.

Definition with_mem (f : memory.disk_file) (s : state) : state :=
  {| llm := llm s; tts := tts s; voice_id := voice_id s; mem := f;
     skills := skills s; router := router s; wake := wake s;
     enabled_json := enabled_json s; skills_dir := skills_dir s;
     ext := ext s; out := out s |}.

Definition with_ext (e : Ext) (s : state) : state :=
  {| llm := llm s; tts := tts s; voice_id := voice_id s; mem := mem s;
     skills := skills s; router := router s; wake := wake s;
     enabled_json := enabled_json s; skills_dir := skills_dir s;
     ext := e; out := out s |}.

Definition with_out (o : list event) (s : state) : state :=
  {| llm := llm s; tts := tts s; voice_id := voice_id s; mem := mem s;
     skills := skills s; router := router s; wake := wake s;
     enabled_json := enabled_json s; skills_dir := skills_dir s;
     ext := ext s; out := o |}.

Definition with_skills (sk : pydict.t (plugins.LoadedSkill Ext))
    (r : plugins.PluginRouter Ext) (s : state) : state :=
  {| llm := llm s; tts := tts s; voice_id := voice_id s; mem := mem s;
     skills := sk; router := r; wake := wake s;
     enabled_json := enabled_json s; skills_dir := skills_dir s;
     ext := ext s; out := out s |}.

Definition with_enabled_json (sf : plugins.state_file) (s : state) : state :=
  {| llm := llm s; tts := tts s; voice_id := voice_id s; mem := mem s;
     skills := skills s; router := router s; wake := wake s;
     enabled_json := sf; skills_dir := skills_dir s;
     ext := ext s; out := out s |}.

Definition with_skills_dir (d : plugins.directory Ext) (s : state) : state :=
  {| llm := llm s; tts := tts s; voice_id := voice_id s; mem := mem s;
     skills := skills s; router := router s; wake := wake s;
     enabled_json := enabled_json s; skills_dir := d;
     ext := ext s; out := out s |}.

(** *** Commands: state passing with exceptions *)

Definition M (A : Type) : Type := state -> res A * state.

Definition ret {A} (a : A) : M A := fun s => (Ok a, s).

Definition bind {A B} (m : M A) (k : A -> M B) : M B :=
  fun s => match m s with
           | (Ok a, s') => k a s'
           | (Raise e, s') => (Raise e, s')
           end.

(** [try: m  except Exception as e: h e] *)
Definition try_except {A} (m : M A) (h : exn -> M A) : M A :=
  fun s => match m s with
           | (Ok a, s') => (Ok a, s')
           | (Raise e, s') => h e s'
           end.

Definition emit (ev : event) : M unit :=
  fun s => (Ok tt, with_out (out s ++ [ev]) s).

(** a call on the fact store that reads *)
Definition mem_read {A} (op : memory.disk_file -> res A) : M A :=
  fun s => (op (mem s), s).

(** a call on the fact store that writes *)
Definition mem_write (op : memory.disk_file -> res memory.disk_file) : M unit :=
  fun s => match op (mem s) with
           | Ok f => (Ok tt, with_mem f s)
           | Raise e => (Raise e, s)
           end.

(** a call on a collaborator *)
Definition ext_call {A} (op : Ext -> A * Ext) : M A :=
  fun s => let '(a, e) := op (ext s) in (Ok a, with_ext e s).

Definition ext_try {A} (op : Ext -> res A * Ext) : M A :=
  fun s => let '(r, e) := op (ext s) in (r, with_ext e s).

End with_ext.
Arguments LLM : clear implicits.
Arguments TTS : clear implicits.
Arguments state : clear implicits.
Arguments M : clear implicits.

Notation "'let*' x := m 'in' k" := (bind m (fun x => k))
  (at level 10, x name, m at level 100, k at level 200).
Notation "'do' m 'then' k" := (bind m (fun _ => k))
  (at level 10, m at level 100, k at level 200).

Section say.
Context {Ext : Type}.

(** [ctx.mem.append_conversation(user, bot)] *)
Definition append_conversation (user bot : option string) : M Ext unit :=
  do emit (Append user bot) then
  mem_write (memory.append_conversation user bot).

(** the [try: ctx.tts.speak(..) except Exception as e: print(..)] block *)
Definition speak_or_log (s : string) : M Ext unit :=
  try_except
    (do emit (Speak s) then
     fun st => ext_try (speak (tts st) s (voice_id st)) st)
    (fun e => emit (Print ("[TTS] " +:+ exn_str e))).

(** [say] *)
Definition say (txt : string) : M Ext unit :=
  do emit (Print ("Orion: " +:+ txt)) then
  do speak_or_log txt then
  append_conversation None (Some txt).

End say.

End context.

(** ** core/router.py: the legacy rule table *)

Module router.

Record SkillHit : Type := { name : string; hit : re.rmatch_obj }.

Import re.

Definition weather_re : regex :=
  cat [WordB;
       Group 1 (alt [lit "weather"; lit "forecast";
                     Seq (lit "temp") (opt (lit "erature"));
                     lit "rain"; lit "wind"; lit "snow"; lit "humidity"; lit "humid"]);
       WordB].

Definition news_re : regex :=
  cat [WordB;
       Group 1 (alt [lit "news";
                     Seq (lit "headline") (opt (Class (fun c => Ascii.eqb c "s")));
                     Seq (lit "top stor") (alt [lit "y"; lit "ies"]);
                     lit "breaking"]);
       WordB].

Definition search_re : regex :=
  cat [WordB;
       Group 1 (alt [lit "search";
                     cat [lit "look"; Star space; lit "up"];
                     lit "lookup"; lit "find"; lit "query"]);
       WordB].

Definition remember_re : regex :=
  cat [Bol; Star space; lit "remember"; Star space; Chr ":"].

(** [RULES], every pattern compiled with [re.I] *)
Definition RULES : list (string * regex) :=
  [("weather", weather_re); ("news", news_re); ("search", search_re);
   ("remember", remember_re)].

Fixpoint route_in (rules : list (string * regex)) (s : string) : option SkillHit :=
  match rules with
  | [] => None
  | (nm, rx) :: rules' =>
      match search true rx s with
      | Some m => Some {| name := nm; hit := m |}
      | None => route_in rules' s
      end
  end.

(** [route] *)
Definition route (s : string) : option SkillHit := route_in RULES s.

End router.

(** ** core/memory_bridge.py: answers and context from the fact store *)

Module memory_bridge.

Import re.

Definition what_is_my : list regex :=
  [WordB; lit "what"; alt [lit "'s"; lit " is"]; plus space; lit "my"; plus space].

(** [QMAP]: pattern, fact key, reply template *)
Definition QMAP : list (regex * string * (string -> string)) :=
  [ (cat (what_is_my ++ [lit "name"; WordB]),
     "user_name", fun v => "Your name is " +:+ v +:+ ".");
    (cat [WordB; lit "who"; plus space; lit "am"; plus space; lit "i"; WordB],
     "user_name", fun v => "You are " +:+ v +:+ ".");
    (cat [WordB; lit "where"; plus space;
          alt [cat [lit "do"; plus space; lit "i"; plus space; lit "live"];
               cat [lit "is"; plus space; lit "my"; plus space; lit "home"]];
          WordB],
     "home_city", fun v => "You live in " +:+ v +:+ ".");
    (cat (what_is_my ++ [lit "role"; WordB]),
     "role", fun v => "Your role is " +:+ v +:+ ".");
    (cat (what_is_my ++ [lit "favorite"; plus space; lit "color"; WordB]),
     "favorite_color", fun v => "Your favorite color is " +:+ v +:+ ".");
    (cat (what_is_my ++ [lit "coffee"; plus space; lit "order"; WordB]),
     "coffee_order", fun v => "Your coffee order is " +:+ v +:+ ".");
    (cat (what_is_my ++ [lit "timezone"; WordB]),
     "timezone", fun v => "Your timezone is " +:+ v +:+ ".") ].

(** the generic form [what is my X] *)
Definition generic_re : regex :=
  cat (what_is_my ++
       [Group 1 (Seq (Class text.is_lower)
                     (Repeat 1 40 (Class (fun c => text.is_lower c || text.mem_char c " _-"))));
        opt (Chr "?"); Eol]).

(** Python's [a or b] on two optional texts *)
Definition py_or (a b : option string) : option string :=
  match a with
  | Some v => if text.truthy v then a else b
  | None => b
  end.

(** Python's truth value of an optional text *)
Definition is_truthy (a : option string) : option string :=
  match a with
  | Some v => if text.truthy v then Some v else None
  | None => None
  end.

Definition dont_have (key : string) : string :=
  "I don't have your " +:+ text.replace "_" " " key +:+ " yet.".

Fixpoint answer_qmap (f : memory.disk_file) (s : string)
    (qmap : list (regex * string * (string -> string))) : option (res string) :=
  match qmap with
  | [] => None
  | (rx, key, template) :: qmap' =>
      match search false rx s with
      | Some _ =>
          Some (match memory.recall key f with
                | Raise e => Raise e
                | Ok val =>
                    match is_truthy val with
                    | Some v => Ok (template v)
                    | None => Ok (dont_have key)
                    end
                end)
      | None => answer_qmap f s qmap'
      end
  end.

(** [memory_answer] *)
Definition memory_answer (f : memory.disk_file) (txt : string) : res (option string) :=
  let s := text.strip (text.lower txt) in
  match answer_qmap f s QMAP with
  | Some (Ok a) => Ok (Some a)
  | Some (Raise e) => Raise e
  | None =>
      match search false generic_re s with
      | Some m =>
          let key := text.replace " " "_" (text.replace "-" "_"
                       (text.lower (text.strip (group 1 m)))) in
          match memory.recall key f with
          | Raise e => Raise e
          | Ok v1 =>
              match (match is_truthy v1 with
                     | Some _ => Ok v1
                     | None => memory.recall ("favorite_" +:+ key) f
                     end) with
              | Raise e => Raise e
              | Ok val =>
                  match is_truthy val with
                  | Some v =>
                      Ok (Some ("Your " +:+ text.replace "_" " " key +:+ " is " +:+ v +:+ "."))
                  | None => Ok (Some (dont_have key))
                  end
              end
          end
      | None => Ok None
      end
  end.

Definition PREFERRED_FACT_KEYS : list string :=
  ["user_name"; "role"; "home_city"; "home_country";
   "weather_default"; "units"; "favorite_color"; "coffee_order"; "timezone"].

(** the loop over [PREFERRED_FACT_KEYS] *)
Fixpoint preferred (f : memory.disk_file) (ks : list string)
    : res (list (string * string)) :=
  match ks with
  | [] => Ok []
  | k :: ks' =>
      match memory.recall k f with
      | Raise e => Raise e
      | Ok val =>
          match preferred f ks' with
          | Raise e => Raise e
          | Ok picks =>
              Ok (match is_truthy val with
                  | Some v => (k, v) :: picks
                  | None => picks
                  end)
          end
      end
  end.

(** the loop that drops repeated keys and stops at [limit] entries *)
Fixpoint dedup_clamp (limit : nat) (picks out : list (string * string))
    (seen : list string) : list (string * string) :=
  match picks with
  | [] => out
  | (k, v) :: picks' =>
      if existsb (String.eqb k) seen then dedup_clamp limit picks' out seen
      else
        let out' := out ++ [(k, v)] in
        if (limit <=? length out')%nat then out'
        else dedup_clamp limit picks' out' (k :: seen)
  end.

(** [relevant_facts] *)
Definition relevant_facts (f : memory.disk_file) (txt : string) (limit : nat)
    : res (list (string * string)) :=
  match memory.facts_like "" f with
  | Raise e => Raise e
  | Ok [] => Ok []
  | Ok all_facts =>
      let s := text.lower txt in
      let picks :=
        List.filter
          (fun kv => existsb (fun w => text.contains w s)
                             (text.split "_" (text.lower (fst kv))))
          all_facts in
      match (match picks with
             | [] => preferred f PREFERRED_FACT_KEYS
             | _ => Ok picks
             end) with
      | Raise e => Raise e
      | Ok picks => Ok (dedup_clamp limit picks [] [])
      end
  end.

(** [format_fact_context] *)
Definition format_fact_context (facts : list (string * string)) : string :=
  match facts with
  | [] => ""
  | _ =>
      "Known user facts:" +:+ String text.nl "" +:+
      text.join (String text.nl "")
        (map (fun kv => "- " +:+ text.title (text.replace "_" " " (fst kv))
                        +:+ ": " +:+ snd kv) facts)
  end.

End memory_bridge.

(** ** core/admin.py: the admin commands *)

Module admin.

Import re context.

Definition tail_punct : regex := opt (Class (fun c => text.mem_char c ".!")).

Definition ADMIN_RELOAD_RE : regex :=
  cat [Bol;
       Group 1 (alt [lit "reload"; lit "reload it"; lit "reload now";
                     lit "refresh"; lit "refresh it"; lit "refresh now"]);
       tail_punct; Eol].

Definition LIST_SKILLS_RE : regex :=
  cat [Bol;
       Group 1 (alt [lit "list skills"; lit "show skills"; lit "what skills";
                     Seq (lit "skills") (opt (Chr "?"))]);
       tail_punct; Eol].

Definition SKILL_CMD_RE : regex :=
  cat [WordB; lit "skill"; opt (Chr "s"); WordB;
       plus (Class (fun c => text.mem_char c ",:-" || text.is_space c));
       Group 1 (Star dot); Eol].

Definition MEM_LIST_RE : regex :=
  cat [Bol;
       Group 1 (alt [lit "list memory"; lit "show memory"; lit "dump memory";
                     lit "memory list"]);
       tail_punct; Eol].

Definition key_class : regex :=
  Class (fun c => text.is_lower c || text.is_digit c || text.mem_char c "_ -").

Definition MEM_GET_RE : regex :=
  cat [Bol; lit "memory get"; plus space; Group 1 (Repeat 1 40 key_class);
       tail_punct; Eol].

Definition MEM_SET_RE : regex :=
  cat [Bol; lit "memory set"; plus space; Group 1 (Repeat 1 40 key_class);
       Star space; Chr "="; Star space; Group 2 (plus dot); Eol].

(** the two clean-up patterns of [handle_skill_admin] (no flags) *)
Definition filler_re : regex :=
  cat [WordB;
       Group 1 (alt [lit "it"; lit "please"; lit "now"; Seq (lit "thank") (opt (Chr "s"))]);
       WordB; Eol].
Definition scaf_re : regex :=
  cat [Bol; Group 1 (alt [lit "gaffled"; lit "scaf"; lit "scafold"]); WordB].

Definition usage : string :=
  "Usage: skill list | skill reload | skill enable <name> | skill disable <name> | skill scaffold <name>".

(** the key normalisation shared by [memory get] and [memory set] *)
Definition normalize_key (g : string) : string :=
  text.replace "-" "_" (text.replace " " "_" (text.lower (text.strip g))).

(** how a key is shown: [key.replace('_',' ').title()] *)
Definition show_key (key : string) : string :=
  text.title (text.replace "_" " " key).

(** order of the pairs under [sorted] *)
Definition pair_ltb (a b : string * string) : bool :=
  text.ltb (fst a) (fst b)
  || (String.eqb (fst a) (fst b) && text.ltb (snd a) (snd b)).

Fixpoint insert_sorted (x : string * string) (l : list (string * string))
    : list (string * string) :=
  match l with
  | [] => [x]
  | y :: l' => if pair_ltb x y then x :: l else y :: insert_sorted x l'
  end.

(** [sorted(pairs)] *)
Definition sorted (l : list (string * string)) : list (string * string) :=
  fold_left (fun acc x => insert_sorted x acc) l [].

Definition empty_memory_text : string :=
  let n := String text.nl "" in
  "Your memory is empty. Try adding some:" +:+ n +:+
  "  remember: user_name = Benjamin" +:+ n +:+
  "  remember: favorite_color = navy" +:+ n +:+
  "  remember: weather_default = Marble Falls, TX, US".

Section with_ext.
Context {Ext : Type}.

(** [reload_skills] *)
Definition reload_skills : M Ext string :=
  fun s =>
    let sk := plugins.load_skills (enabled_json s) (skills_dir s) in
    (Ok ("Reloaded skills: " +:+
         match sk with
         | [] => "(none)"
         | _ => text.join ", " (pydict.keys sk)
         end),
     with_skills sk (plugins.new_router sk) s).

(** the text said for [list skills] and [skill list] *)
Definition installed_skills : M Ext string :=
  fun s =>
    let rows :=
      map (fun r : string * bool * string =>
             let '(n, en, desc) := r in
             "• " +:+ n +:+ " [" +:+ (if en then "on" else "off") +:+ "] — " +:+ desc)
          (plugins.list_all (enabled_json s) (skills_dir s)) in
    (Ok ("Installed skills:" +:+ String text.nl "" +:+
         match rows with
         | [] => "(none)"
         | _ => text.join (String text.nl "") rows
         end), s).

Definition set_enabled (nm : string) (enabled : bool) : M Ext string :=
  fun s =>
    let '(msg, sf) := plugins.set_enabled nm enabled (enabled_json s) in
    (Ok msg, with_enabled_json sf s).

Definition scaffold (nm : string) : M Ext string :=
  fun s =>
    let '(p, d) := plugins.scaffold nm (skills_dir s) in
    (Ok p, with_skills_dir d s).

(** [cmd.split(" ", 1)[1]] *)
Definition after_space (cmd : string) : string :=
  default "" (snd (text.split1 " " cmd)).

(** [handle_skill_admin] *)
Definition handle_skill_admin (low : string) : M Ext bool :=
  match fullmatch true ADMIN_RELOAD_RE low with
  | Some _ => let* msg := reload_skills in do say msg then ret true
  | None =>
  match fullmatch true LIST_SKILLS_RE low with
  | Some _ => let* msg := installed_skills in do say msg then ret true
  | None =>
  match search true SKILL_CMD_RE low with
  | None => ret false
  | Some m =>
      let cmd := text.strip (group 1 m) in
      let cmd := text.rstrip_chars ".!,?" cmd in
      let cmd := text.strip (sub false filler_re "" None cmd) in
      let cmd := sub false scaf_re "scaffold" None cmd in
      if String.eqb cmd "list" then
        let* msg := installed_skills in do say msg then ret true
      else if String.eqb cmd "reload" then
        let* msg := reload_skills in do say msg then ret true
      else if text.startswith "enable " cmd then
        let* msg := set_enabled (text.strip (after_space cmd)) true in
        do say msg then ret true
      else if text.startswith "disable " cmd then
        let* msg := set_enabled (text.strip (after_space cmd)) false in
        do say msg then ret true
      else if text.startswith "scaffold " cmd then
        match snd (text.split1 " " cmd) with
        | None => do say "Usage: skill scaffold <name>" then ret true
        | Some arg =>
            if text.truthy (text.strip arg) then
              let* p := scaffold (text.strip arg) in
              do say ("Created " +:+ p +:+ ". Edit it, then say 'skill reload'.") then
              ret true
            else do say "Usage: skill scaffold <name>" then ret true
        end
      else do say usage then ret true
  end end end.

(** [handle_memory_admin] *)
Definition handle_memory_admin (low : string) : M Ext bool :=
  match fullmatch true MEM_LIST_RE low with
  | Some _ =>
      let* pairs := mem_read (memory.facts_like "") in
      match pairs with
      | [] => do say empty_memory_text then ret true
      | _ =>
          let rows := map (fun kv => "• " +:+ show_key (fst kv) +:+ ": " +:+ snd kv)
                          (sorted pairs) in
          do say ("Memory facts:" +:+ String text.nl "" +:+
                  text.join (String text.nl "") (take 50 rows)) then
          ret true
      end
  | None =>
  match fullmatch true MEM_GET_RE low with
  | Some m =>
      let key := normalize_key (group 1 m) in
      let* v1 := mem_read (memory.recall key) in
      let* val := match memory_bridge.is_truthy v1 with
                  | Some _ => ret v1
                  | None => mem_read (memory.recall ("favorite_" +:+ key))
                  end in
      do say (match memory_bridge.is_truthy val with
              | Some v => show_key key +:+ ": " +:+ v
              | None => "No value saved for " +:+ show_key key +:+ "."
              end) then
      ret true
  | None =>
  match fullmatch true MEM_SET_RE low with
  | Some m =>
      let key := normalize_key (group 1 m) in
      let val := text.strip (group 2 m) in
      do mem_write (memory.remember key val) then
      do say ("Saved " +:+ show_key key +:+ ": " +:+ val) then
      ret true
  | None => ret false
  end end end.

End with_ext.

End admin.

(** ** core/llm_path.py: the reply fallback chain *)

Module llm_path.

Import context.

Definition apology : string :=
  "Sorry, I couldn't generate a response just now. Please try again.".

(** [user_for_llm] *)
Definition with_preface (preface user : string) : string :=
  if text.truthy preface
  then preface +:+ String text.nl (String text.nl "User: ") +:+ user
  else user.

Section with_ext.
Context {Ext : Type}.

Definition llm_stream (s : string) : M Ext (list string) :=
  do emit (LlmStream s) then
  fun st => ext_call (stream (llm st) s) st.

Definition llm_send (s : string) : M Ext string :=
  do emit (LlmSend s) then
  fun st => ext_call (send (llm st) s) st.

Definition llm_reset : M Ext unit :=
  do emit LlmReset then
  fun st => ext_try (reset (llm st)) st.

(** the loop over the chunks: prints them and collects the non-empty ones;
    [printed] is [printed_stream] *)
Fixpoint consume (chunks : list string) (printed : bool) (full : list string)
    : M Ext (bool * list string) :=
  match chunks with
  | [] => ret (printed, full)
  | chunk :: chunks' =>
      if text.truthy chunk then
        do (if printed then ret tt else emit (Print "Orion: ")) then
        do emit (Print chunk) then
        consume chunks' true (full ++ [chunk])
      else consume chunks' printed full
  end.

(** [llm_respond] *)
Definition llm_respond (user : string) : M Ext unit :=
  let* facts := mem_read (fun f => memory_bridge.relevant_facts f user 6) in
  let user_for_llm := with_preface (memory_bridge.format_fact_context facts) user in
  (* 1) streaming *)
  let* chunks := llm_stream user_for_llm in
  let* pf := consume chunks false [] in
  let printed_stream := fst pf in
  do (if printed_stream then emit (Print (String text.nl "")) else ret tt) then
  let reply := text.strip (text.join "" (snd pf)) in
  (* 2) non-streaming *)
  let* reply := (if text.truthy reply then ret reply else llm_send user_for_llm) in
  (* 3) reset, then once more *)
  let* reply := (if text.truthy reply then ret reply
                 else do llm_reset then llm_send user_for_llm) in
  (* 4) always say something *)
  let reply := if text.truthy reply then reply else apology in
  do (if printed_stream then ret tt else emit (Print ("Orion: " +:+ reply))) then
  do speak_or_log reply then
  append_conversation None (Some reply).

End with_ext.

End llm_path.

(** ** core/runtime.py: handling one utterance *)

Module runtime.

Import context.

(** [rf"^\s*{re.escape(wake)}[\s,:\-]+\s*"] *)
Definition wake_prefix_re (wake : string) : re.regex :=
  re.cat [re.Bol; re.Star re.space; re.escape wake;
          re.plus (re.Class (fun c => text.is_space c || text.mem_char c ",:-"));
          re.Star re.space].

(** [user]: the utterance without a leading wake word *)
Definition command_text (wake raw : string) : string :=
  if text.startswith (text.lower wake) (text.lower raw)
  then text.strip (re.sub true (wake_prefix_re wake) "" None raw)
  else raw.

(** the line printed when a skill raises *)
Definition skill_error_text (name : string) (e : exn) : string :=
  "Skill '" +:+ name +:+ "' error: " +:+ exn_str e +:+ ". Falling back to legacy/LLM.".

Section with_ext.
Context {Ext : Type}.

(** [sk.run(user, context={"mem": ctx.mem, "settings": settings})] *)
Definition run_skill (sk : plugins.LoadedSkill Ext) (user : string) : M Ext string :=
  do emit (SkillRun (plugins.name sk)) then
  fun st =>
    let '(r, f, e) := plugins.run sk user (mem st) (ext st) in
    (r, with_ext e (with_mem f st)).

(** [__import__("skills.registry", fromlist=["registry"]).registry.run(..)]:
    [__import__] with a non-empty [fromlist] gives the module
    skills/registry.py itself, which defines no attribute [registry], so
    the attribute access raises before anything is run. *)
Definition legacy_dispatch (nm user : string) : M Ext string :=
  fun st => (Raise AttributeError, st).

(** the stage that ends the handling of an utterance *)
Inductive stage : Type :=
| SkillAdmin | MemoryAdmin | FastPath | Plugin | Legacy | Llm.

(** the [# Plugins] block: whether a skill served the utterance *)
Definition try_plugin (user : string) : M Ext bool :=
  do emit (Route user) then
  let* st := (fun st => (Ok st, st)) in
  match plugins.route (router st) user with
  | Some sk =>
      try_except
        (let* result := run_skill sk user in
         do say result then ret true)
        (fun e =>
           do emit (Print (skill_error_text (plugins.name sk) e)) then
           ret false)
  | None => ret false
  end.

(** the legacy block: whether a legacy skill served the utterance *)
Definition try_legacy (user : string) : M Ext bool :=
  do emit (LegacyRoute user) then
  match router.route user with
  | Some legacy =>
      try_except
        (let* result := legacy_dispatch (router.name legacy) user in
         do say result then ret true)
        (fun e =>
           do emit (Print ("Legacy skill '" +:+ router.name legacy +:+ "' error: "
                           +:+ exn_str e +:+ ". Falling back to LLM.")) then
           ret false)
  | None => ret false
  end.

(** from [# Log user] on: plugins, then legacy, then LLM *)
Definition dispatch (user : string) : M Ext stage :=
  do append_conversation (Some user) None then
  let* served := try_plugin user in
  if served then ret Plugin else
  let* served := try_legacy user in
  if served then ret Legacy else
  do llm_path.llm_respond user then
  ret Llm.

(** The part of the loop body of [run_loop] from [# Process command] on,
    for an utterance [raw] heard while awake; every [continue] of the
    source is a return here, with the stage that ended the iteration. *)
Definition process_command (raw : string) : M Ext stage :=
  let* st0 := (fun st => (Ok st, st)) in
  let user := command_text (wake st0) raw in
  let low := text.strip (text.lower user) in
  (* admin routes *)
  let* handled := admin.handle_skill_admin low in
  if handled then ret SkillAdmin else
  let* handled := admin.handle_memory_admin low in
  if handled then ret MemoryAdmin else
  (* memory Q&A fast path *)
  let* ans := mem_read (fun f => memory_bridge.memory_answer f user) in
  match memory_bridge.is_truthy ans with
  | Some a => do say a then ret FastPath
  | None => dispatch user
  end.

End with_ext.

End runtime.

(** ** Concrete collaborators and states, used to run the model *)

Module demo.

Import context.

(** An outside world that only remembers whether the LLM session was
    reset: [stream] yields nothing, [send] answers only after a reset. *)
Definition llm_after_reset : LLM bool :=
  {| stream := fun _ e => (@nil string, e);
     send := fun _ (e : bool) => (if e then "Hello" else "", e);
     reset := fun _ => (Ok tt, true) |}.

(** a session whose stream yields one blank chunk and whose [send]
    answers *)
Definition llm_blank_chunk : LLM bool :=
  {| stream := fun _ e => ([" "], e);
     send := fun _ e => ("Hello", e);
     reset := fun e => (Ok tt, e) |}.

(** a session that answers nothing and cannot be made anew *)
Definition llm_no_session : LLM bool :=
  {| stream := fun _ e => (@nil string, e);
     send := fun _ e => ("", e);
     reset := fun _ => (Raise (External "no backend"), true) |}.

(** a voice output that always fails *)
Definition tts_broken : TTS bool :=
  {| speak := fun _ _ e => (Raise (External "voice_not_found"), e) |}.

(** a voice output that works *)
Definition tts_fine : TTS bool :=
  {| speak := fun _ _ e => (Ok tt, e) |}.

(** skills/hello.py *)
Definition hello_run : plugins.skill_fn bool :=
  fun _ f e =>
    match memory.recall "favorite_color" f with
    | Raise x => (Raise x, f, e)
    | Ok fav =>
        (Ok ("Hello, Benjamin!" +:+
             match memory_bridge.is_truthy fav with
             | Some c => " Your favorite color is " +:+ c +:+ "."
             | None => ""
             end), f, e)
    end.

Definition hello_module : plugins.pymodule bool :=
  {| plugins.mod_run := Some hello_run;
     plugins.mod_NAME := Some "hello";
     plugins.mod_TRIGGERS :=
       Some [Some (re.cat [re.WordB; re.lit "hello"; re.WordB]);
             Some (re.cat [re.WordB; re.lit "hi orion"; re.WordB])];
     plugins.mod_DESCRIPTION := Some "Greets and shows a memory fact." |}.

(** a skill whose [run] raises *)
Definition broken_module : plugins.pymodule bool :=
  {| plugins.mod_run := Some (fun _ f e => (Raise (External "boom"), f, e));
     plugins.mod_NAME := Some "broken";
     plugins.mod_TRIGGERS := Some [Some (re.cat [re.WordB; re.lit "weather"; re.WordB])];
     plugins.mod_DESCRIPTION := None |}.

(** a skill that ruins the memory file and returns its reply *)
Definition wrecker_module : plugins.pymodule bool :=
  {| plugins.mod_run := Some (fun _ _ e => (Ok "done", memory.Malformed, e));
     plugins.mod_NAME := Some "wrecker";
     plugins.mod_TRIGGERS := Some [Some (re.cat [re.WordB; re.lit "wreck"; re.WordB])];
     plugins.mod_DESCRIPTION := None |}.

Definition dir_hello : plugins.directory bool :=
  {[ "hello.py" := {| plugins.source := "..."; plugins.imported := Ok hello_module |} ]}.

Definition dir_broken : plugins.directory bool :=
  {[ "broken.py" := {| plugins.source := "..."; plugins.imported := Ok broken_module |} ]}.

Definition dir_wrecker : plugins.directory bool :=
  {[ "wrecker.py" := {| plugins.source := "..."; plugins.imported := Ok wrecker_module |} ]}.

(** the state after [boot] over a given memory file and skills directory *)
Definition booted (tts : TTS bool) (f : memory.disk_file) (dir : plugins.directory bool)
  : state bool :=
  let sk := plugins.load_skills plugins.NoState dir in
  {| llm := llm_after_reset; tts := tts; voice_id := "voice";
     mem := memory.__init__ f;
     skills := sk; router := plugins.new_router sk; wake := "orion";
     enabled_json := plugins.NoState; skills_dir := dir;
     ext := false; out := [] |}.

Definition ben : memory.disk_file :=
  memory.Stored (memory.Doc (Some [("user_name", "Ben")]) (Some [])).

(** a booted state with another LLM session, whose memory file has since
    become [f] *)
Definition later (l : LLM bool) (tts : TTS bool) (f : memory.disk_file) : state bool :=
  {| llm := l; tts := tts; voice_id := "voice"; mem := f;
     skills := []; router := plugins.new_router []; wake := "orion";
     enabled_json := plugins.NoState; skills_dir := ∅;
     ext := false; out := [] |}.

End demo.

(** ** Drivers: sequences of calls *)

Module drivers.

(** one [append_conversation] call after the other *)
Fixpoint append_all (ts : list (option string * option string)) (f : memory.disk_file)
    : res memory.disk_file :=
  match ts with
  | [] => Ok f
  | (u, b) :: ts' =>
      match memory.append_conversation u b f with
      | Ok f' => append_all ts' f'
      | Raise e => Raise e
      end
  end.

(** the turns that such calls carry: a call with neither field has none *)
Definition entries (ts : list (option string * option string)) : list memory.turn :=
  omap (fun ub => match ub with
                  | (None, None) => None
                  | (u, b) => Some (memory.Turn u b)
                  end) ts.

(** [n] user turns, numbered by their length *)
Definition numbered (n : nat) : list (option string * option string) :=
  map (fun i => (Some (string_of_list_ascii (replicate i "x"%char)), None)) (seq 0 n).

(** the events added between two states *)
Definition new_events {Ext} (s s' : context.state Ext) : list context.event :=
  drop (length (context.out s)) (context.out s').

(** the [append_conversation] calls among the events *)
Definition appended (tr : list context.event) : list (option string * option string) :=
  omap (fun ev => match ev with context.Append u b => Some (u, b) | _ => None end) tr.

(** the calls on the LLM among the events *)
Definition is_llm_call (ev : context.event) : bool :=
  match ev with
  | context.LlmStream _ | context.LlmSend _ | context.LlmReset => true
  | _ => false
  end.
Definition llm_calls (tr : list context.event) : list context.event :=
  List.filter is_llm_call tr.

(** the events of the routers, the skills and the LLM *)
Definition is_dispatch (ev : context.event) : bool :=
  match ev with
  | context.Print _ | context.Speak _ | context.Append _ _ => false
  | _ => true
  end.

(** what the loop over the streamed chunks prints *)
Fixpoint stream_prints (printed : bool) (chunks : list string) : list context.event :=
  match chunks with
  | [] => []
  | chunk :: chunks' =>
      if text.truthy chunk
      then (if printed then [] else [context.Print "Orion: "])
           ++ context.Print chunk :: stream_prints true chunks'
      else stream_prints printed chunks'
  end.

(** what the [try/except] around [speak] prints *)
Definition tts_log {Ext} (s : context.state Ext) (txt : string) : list context.event :=
  match fst (context.speak (context.tts s) txt (context.voice_id s) (context.ext s)) with
  | Ok _ => []
  | Raise e => [context.Print ("[TTS] " +:+ exn_str e)]
  end.

(** the events of [say] *)
Definition said {Ext} (s : context.state Ext) (txt : string) : list context.event :=
  [context.Print ("Orion: " +:+ txt); context.Speak txt] ++ tts_log s txt
  ++ [context.Append None (Some txt)].

(** the replies handed to [ctx.tts.speak] among the events *)
Definition speaks (tr : list context.event) : list string :=
  omap (fun ev => match ev with context.Speak r => Some r | _ => None end) tr.

(** the [append_conversation] call that logs a bot reply *)
Definition bot (reply : string) : option string * option string := (None, Some reply).

(** the events of [llm_respond] once it has its reply: the reply is
    printed unless a chunk of the stream was, then spoken and logged *)
Definition replied {Ext} (s : context.state Ext) (printed : bool) (reply : string)
    : list context.event :=
  (if printed then [] else [context.Print ("Orion: " +:+ reply)])
  ++ [context.Speak reply] ++ tts_log s reply
  ++ [context.Append None (Some reply)].

(** the state after the events of [say] *)
Definition spoken {Ext} (txt : string) (s : context.state Ext) : context.state Ext :=
  context.with_out (context.out s ++ said s txt)
    (context.with_ext
       (snd (context.speak (context.tts s) txt (context.voice_id s) (context.ext s))) s).

End drivers.

(** ** skills/registry.py: the legacy registry *)

Module registry.

(** [_parse_remember]: the text after [remember:] as a key and a value *)
Definition _parse_remember (rest : string) : string * string :=
  let s := text.strip rest in
  if negb (text.truthy s) then ("note", "")
  else if text.contains "=" s then
    let '(k, v) := text.split1 "=" s in
    ((if text.truthy (text.strip k) then text.strip k else "note"),
     text.strip (default "" v))
  else
    match text.split_ws s with
    | p0 :: p1 :: parts => (text.strip p0, text.strip (text.join " " (p1 :: parts)))
    | _ => ("note", s)
    end.

Definition usage : string :=
  "Usage: remember: key = value  (or)  remember: some note".
Definition no_memory : string :=
  "I couldn't access memory. (No 'mem' in context.)".
Definition what_to_store : string :=
  "What should I store for that key? Try: remember: favorite_color = navy".

(** the confirmation, [val or '(empty)'] included *)
Definition got_it (key val : string) : string :=
  "Got it. I’ll remember " +:+ key +:+ ": "
  +:+ (if text.truthy val then val else "(empty)") +:+ ".".

Section with_ext.
Context {Ext : Type}.

(** [SkillFunc]: a skill function gets the query and the context, which
    holds the fact store under ["mem"] or does not *)
Definition SkillFunc : Type :=
  string -> option memory.disk_file -> Ext
  -> res string * option memory.disk_file * Ext.

(** [_REGISTRY], over the [run] functions of the three skill modules *)
Definition _REGISTRY (weather news search : SkillFunc) : pydict.t SkillFunc :=
  [("weather", weather); ("news", news); ("search", search)].

(** [run]; the [ValueError] for an unknown name is given by its text *)
Definition run (reg : pydict.t SkillFunc) (name query : string)
    (mem : option memory.disk_file) (e : Ext)
  : res string * option memory.disk_file * Ext :=
  if String.eqb name "remember" then
    if negb (text.contains ":" query) then (Ok usage, mem, e)
    else
      let rest := default "" (snd (text.split1 ":" query)) in
      let '(key, val) := _parse_remember rest in
      match mem with
      | None => (Ok no_memory, mem, e)
      | Some f =>
          if negb (text.truthy val) && negb (String.eqb key "note")
          then (Ok what_to_store, mem, e)
          else
            match memory.remember key val f with
            | Raise x => (Raise x, mem, e)
            | Ok f' => (Ok (got_it key val), Some f', e)
            end
      end
  else
    match pydict.get name reg with
    | None => (Raise (External ("Unknown skill '" +:+ name +:+ "'")), mem, e)
    | Some fn => fn query mem e
    end.

End with_ext.
Arguments SkillFunc : clear implicits.

End registry.

(** * Properties *)

(** ** Dictionaries *)

Lemma pydict_get_set_eq {A} (k : string) (v : A) (d : pydict.t A) :
  pydict.get k (pydict.set k v d) = Some v.
Proof.
  induction d as [|[k' v'] d IH]; simpl.
  - by rewrite String.eqb_refl.
  - destruct (String.eqb k' k) eqn:E; simpl.
    + by rewrite String.eqb_refl.
    + by rewrite E.
Qed.

Lemma pydict_get_set_ne {A} (k k0 : string) (v : A) (d : pydict.t A) :
  k0 <> k -> pydict.get k0 (pydict.set k v d) = pydict.get k0 d.
Proof.
  intros Hne. induction d as [|[k' v'] d IH]; simpl.
  - destruct (String.eqb k k0) eqn:E; [|done].
    apply String.eqb_eq in E. congruence.
  - destruct (String.eqb k' k) eqn:E; simpl.
    + apply String.eqb_eq in E. subst k'.
      destruct (String.eqb k k0) eqn:E'; [|done].
      apply String.eqb_eq in E'. congruence.
    + by rewrite IH.
Qed.

(** ** The conversation cap *)

Section last_n.
Context {A : Type}.
Implicit Types (l a b : list A) (n : nat).

Lemma last_n_short n l : length l <= n -> memory.last_n n l = l.
Proof.
  intros H. unfold memory.last_n.
  replace (length l - n) with 0 by lia. done.
Qed.

Lemma length_last_n n l : length (memory.last_n n l) = Nat.min n (length l).
Proof. unfold memory.last_n. rewrite length_drop. lia. Qed.

Lemma last_n_app_inner n a b :
  memory.last_n n (memory.last_n n a ++ b) = memory.last_n n (a ++ b).
Proof.
  destruct (decide (length a <= n)) as [Hle|Hgt].
  - by rewrite (last_n_short n a).
  - unfold memory.last_n at 1 3.
    rewrite !length_app, length_last_n.
    unfold memory.last_n.
    replace (Nat.min n (length a) + length b - n) with (length b) by lia.
    replace (length a + length b - n) with ((length a - n) + length b) by lia.
    rewrite <- drop_drop. f_equal.
    rewrite drop_app_le by lia. done.
Qed.

Lemma last_n_app_long n a b :
  n <= length b -> memory.last_n n (a ++ b) = memory.last_n n b.
Proof.
  intros H. unfold memory.last_n. rewrite length_app.
  replace (length a + length b - n) with (length a + (length b - n)) by lia.
  by rewrite drop_app_add.
Qed.

End last_n.

(** one call, on a readable file whose log respects the cap *)
Lemma append_conversation_step (user bot : option string) f d :
  memory._read f = Ok d ->
  length (memory.conversations_of d) <= memory.MAX_CONVERSATIONS ->
  exists f' d',
    memory.append_conversation user bot f = Ok f' /\
    memory._read f' = Ok d' /\
    memory.facts_of d' = memory.facts_of d /\
    memory.conversations_of d' =
      memory.last_n memory.MAX_CONVERSATIONS
        (memory.conversations_of d ++ drivers.entries [(user, bot)]).
Proof.
  intros Hr Hlen. unfold memory.append_conversation. rewrite Hr.
  assert (Hsome : forall t,
    (user, bot) <> (None, None) -> drivers.entries [(user, bot)] = [t] ->
    exists f' d',
      Ok (memory._safe_write
            (memory.Doc (memory.facts d)
               (Some (if (memory.MAX_CONVERSATIONS <? length (memory.conversations_of d ++ [t]))%nat
                      then memory.last_n memory.MAX_CONVERSATIONS (memory.conversations_of d ++ [t])
                      else memory.conversations_of d ++ [t]))) f) = Ok f' /\
      memory._read f' = Ok d' /\
      memory.facts_of d' = memory.facts_of d /\
      memory.conversations_of d' =
        memory.last_n memory.MAX_CONVERSATIONS
          (memory.conversations_of d ++ drivers.entries [(user, bot)])).
  { intros t _ ->. eexists _, _. split; [reflexivity|]. split; [reflexivity|].
    split; [reflexivity|]. unfold memory.conversations_of at 1. simpl.
    destruct (_ <? _)%nat eqn:E; [done|].
    apply Nat.ltb_ge in E. by rewrite last_n_short. }
  destruct user as [u|], bot as [b|]; simpl.
  1-3: by apply Hsome.
  exists f, d. split; [done|]. split; [done|]. split; [done|].
  rewrite app_nil_r. by rewrite last_n_short.
Qed.

(** a call that carries a turn, on a readable file *)
Lemma append_turn_spec (u b : option string) f d :
  memory._read f = Ok d -> is_Some u \/ is_Some b ->
  memory.append_conversation u b f =
    Ok (memory.Stored
          (memory.Doc (memory.facts d)
             (Some (memory.last_n memory.MAX_CONVERSATIONS
                      (memory.conversations_of d ++ [memory.Turn u b]))))).
Proof.
  intros Hr Hub. unfold memory.append_conversation. rewrite Hr.
  assert (Hcut :
    (if (memory.MAX_CONVERSATIONS <? length (memory.conversations_of d ++ [memory.Turn u b]))%nat
     then memory.last_n memory.MAX_CONVERSATIONS (memory.conversations_of d ++ [memory.Turn u b])
     else memory.conversations_of d ++ [memory.Turn u b]) =
    memory.last_n memory.MAX_CONVERSATIONS (memory.conversations_of d ++ [memory.Turn u b])).
  { destruct (_ <? _)%nat eqn:E; [done|].
    apply Nat.ltb_ge in E. by rewrite last_n_short. }
  destruct u, b; try (unfold memory._safe_write; by rewrite Hcut).
  destruct Hub as [[? ?]|[? ?]]; done.
Qed.

Lemma entries_cons ub ts :
  drivers.entries (ub :: ts) = drivers.entries [ub] ++ drivers.entries ts.
Proof. unfold drivers.entries. simpl. by destruct ub as [[?|] [?|]]. Qed.

Lemma readable_read f : memory.readable f = true -> exists d, memory._read f = Ok d.
Proof. unfold memory.readable. destruct (memory._read f); [eauto | done]. Qed.

Lemma read_readable f d : memory._read f = Ok d -> memory.readable f = true.
Proof. unfold memory.readable. by intros ->. Qed.

(** C4. After any sequence of [append_conversation] calls on a store whose
    log respects the cap, the log holds the last 500 of the turns it had
    followed by the turns appended, in that order; so it never holds more
    than 500 turns, and once more than 500 turns were appended it holds
    exactly the 500 most recent of them. *)
Theorem C4_conversation_cap (ts : list (option string * option string)) f d :
  memory._read f = Ok d ->
  length (memory.conversations_of d) <= memory.MAX_CONVERSATIONS ->
  exists f' d',
    drivers.append_all ts f = Ok f' /\
    memory._read f' = Ok d' /\
    memory.conversations_of d' =
      memory.last_n memory.MAX_CONVERSATIONS
        (memory.conversations_of d ++ drivers.entries ts) /\
    length (memory.conversations_of d') <= memory.MAX_CONVERSATIONS /\
    (memory.MAX_CONVERSATIONS < length (drivers.entries ts) ->
     length (memory.conversations_of d') = memory.MAX_CONVERSATIONS /\
     memory.conversations_of d' =
       memory.last_n memory.MAX_CONVERSATIONS (drivers.entries ts)).
Proof.
  revert f d. induction ts as [|[u b] ts IH]; intros f d Hr Hlen.
  - exists f, d. simpl. rewrite app_nil_r, last_n_short by done.
    repeat split; try done. all: simpl in *; lia.
  - destruct (append_conversation_step u b f d Hr Hlen)
      as (f1 & d1 & Happ & Hr1 & _ & Hc1).
    assert (Hlen1 : length (memory.conversations_of d1) <= memory.MAX_CONVERSATIONS).
    { rewrite Hc1, length_last_n. lia. }
    destruct (IH f1 d1 Hr1 Hlen1) as (f' & d' & Hall & Hr' & Hc' & Hlen' & _).
    exists f', d'. cbn [drivers.append_all]. rewrite Happ.
    assert (Heq : memory.conversations_of d' =
                  memory.last_n memory.MAX_CONVERSATIONS
                    (memory.conversations_of d ++ drivers.entries ((u, b) :: ts))).
    { rewrite Hc', Hc1, last_n_app_inner, <- app_assoc. by rewrite <- entries_cons. }
    repeat split; try done.
    + rewrite Heq, last_n_app_long by lia. rewrite length_last_n. lia.
    + rewrite Heq. apply last_n_app_long. lia.
Qed.

(** C4 at a fresh store and 502 appended turns *)
Lemma C4_conversation_cap_witness :
  exists f' d',
    drivers.append_all (drivers.numbered 502) (memory.Stored memory.empty_document) = Ok f' /\
    memory._read f' = Ok d' /\
    memory.conversations_of d' =
      memory.last_n memory.MAX_CONVERSATIONS
        (memory.conversations_of memory.empty_document
           ++ drivers.entries (drivers.numbered 502)) /\
    length (memory.conversations_of d') <= memory.MAX_CONVERSATIONS /\
    (memory.MAX_CONVERSATIONS < length (drivers.entries (drivers.numbered 502)) ->
     length (memory.conversations_of d') = memory.MAX_CONVERSATIONS /\
     memory.conversations_of d' =
       memory.last_n memory.MAX_CONVERSATIONS (drivers.entries (drivers.numbered 502))).
Proof.
  apply (C4_conversation_cap (drivers.numbered 502)
           (memory.Stored memory.empty_document) memory.empty_document).
  - reflexivity.
  - vm_compute. lia.
Defined.

(** ** Facts: round trip and key handling *)

Lemma remember_spec (k v : string) f d :
  memory._read f = Ok d ->
  memory.remember k v f =
    Ok (memory.Stored (memory.Doc (Some (pydict.set k v (memory.facts_of d)))
                                  (memory.conversations d))).
Proof. intros Hr. unfold memory.remember. by rewrite Hr. Qed.

(** C8. On a readable store, [remember(k, v1)] returns and [recall(k)]
    then gives [v1]; a second [remember(k, v2)] returns and [recall(k)]
    then gives [v2]: the later value replaces the earlier one. *)
Theorem C8_remember_recall (k v1 v2 : string) f :
  memory.readable f = true ->
  exists f1 f2,
    memory.remember k v1 f = Ok f1 /\
    memory.recall k f1 = Ok (Some v1) /\
    memory.remember k v2 f1 = Ok f2 /\
    memory.recall k f2 = Ok (Some v2).
Proof.
  intros [d Hr]%readable_read.
  eexists _, _. split; [by apply remember_spec|].
  split; [unfold memory.recall; simpl; unfold memory.facts_of; simpl;
          by rewrite pydict_get_set_eq|].
  split; [by apply remember_spec|].
  unfold memory.recall; simpl. unfold memory.facts_of; simpl.
  by rewrite pydict_get_set_eq.
Qed.

(** C8 on the store created for a missing file *)
Lemma C8_remember_recall_witness :
  exists f1 f2,
    memory.remember "favorite_color" "navy" (memory.__init__ memory.Missing) = Ok f1 /\
    memory.recall "favorite_color" f1 = Ok (Some "navy") /\
    memory.remember "favorite_color" "teal" f1 = Ok f2 /\
    memory.recall "favorite_color" f2 = Ok (Some "teal").
Proof.
  apply (C8_remember_recall "favorite_color" "navy" "teal" (memory.__init__ memory.Missing)).
  reflexivity.
Defined.

(** ** Construction and corrupt documents *)

Lemma init_readable f : memory.readable (memory.__init__ f) = true.
Proof. by destruct f. Qed.

(** C5, as the claim states it, fails: after construction an unparseable
    document is not read as the empty state; [recall] and [facts_like]
    raise on it, while on the empty document they return. *)
Lemma C5_counterexample :
  memory.recall "user_name" memory.Malformed = Raise JSONDecodeError /\
  memory.facts_like "" memory.Malformed = Raise JSONDecodeError /\
  memory.recall "user_name" (memory.Stored memory.empty_document) = Ok None /\
  memory.facts_like "" (memory.Stored memory.empty_document) = Ok [].
Proof. repeat split. Qed.

(** C5, amended.  Construction turns a missing or unparseable document
    into the empty document and keeps any other, so the store it leaves is
    readable.  After construction the read operations take a blank
    document, and a document without a facts section, for the empty state;
    on an unparseable or missing document they raise. *)
Theorem C5_init_and_reads (k needle : string) (c : option (list memory.turn)) :
  memory.__init__ memory.Missing = memory.Stored memory.empty_document /\
  memory.__init__ memory.Malformed = memory.Stored memory.empty_document /\
  memory.__init__ memory.Blank = memory.Blank /\
  (forall d, memory.__init__ (memory.Stored d) = memory.Stored d) /\
  (forall f, memory.readable (memory.__init__ f) = true) /\
  memory.recall k memory.Blank = Ok None /\
  memory.facts_like needle memory.Blank = Ok [] /\
  memory.recall k (memory.Stored (memory.Doc None c)) = Ok None /\
  memory.facts_like needle (memory.Stored (memory.Doc None c)) = Ok [] /\
  memory.recall k memory.Malformed = Raise JSONDecodeError /\
  memory.facts_like needle memory.Malformed = Raise JSONDecodeError /\
  memory.recall k memory.Missing = Raise FileNotFoundError /\
  memory.facts_like needle memory.Missing = Raise FileNotFoundError.
Proof.
  repeat split; try done. apply init_readable.
Qed.

(** ** Enable state and loading *)

Section loading.
Context {Ext : Type}.
Implicit Types (state : gmap string bool) (mods : list (string * plugins.pyfile Ext)).
Implicit Types (acc : pydict.t (plugins.LoadedSkill Ext)).

Lemma load_loop_ext state1 state2 mods acc :
  (forall n, plugins._is_enabled n state1 = plugins._is_enabled n state2) ->
  plugins.load_loop state1 mods acc = plugins.load_loop state2 mods acc.
Proof.
  intros H. revert acc. induction mods as [|m mods IH]; intros acc; simpl; [done|].
  destruct (plugins._load_one m) as [sk|]; [|done].
  rewrite H. by destruct (plugins._is_enabled _ state2).
Qed.

(** a name that is switched off is not a key of the result, unless it was
    one of the accumulator *)
Lemma load_loop_disabled x state mods acc :
  plugins._is_enabled x state = false ->
  pydict.get x (plugins.load_loop state mods acc) = pydict.get x acc.
Proof.
  intros Hx. revert acc. induction mods as [|m mods IH]; intros acc; simpl; [done|].
  destruct (plugins._load_one m) as [sk|]; [|done].
  destruct (plugins._is_enabled (plugins.name sk) state) eqn:E; [|done].
  rewrite IH. apply pydict_get_set_ne. intros ->. congruence.
Qed.

Lemma load_loop_keeps x state mods acc :
  is_Some (pydict.get x acc) ->
  is_Some (pydict.get x (plugins.load_loop state mods acc)).
Proof.
  revert acc. induction mods as [|m mods IH]; intros acc Hacc; simpl; [done|].
  destruct (plugins._load_one m) as [sk|]; [|by apply IH].
  destruct (plugins._is_enabled (plugins.name sk) state); [|by apply IH].
  apply IH. destruct (decide (x = plugins.name sk)) as [->|Hne].
  - by rewrite pydict_get_set_eq.
  - by rewrite pydict_get_set_ne.
Qed.

(** a module that loads under an enabled name puts that name in the result *)
Lemma load_loop_enabled state mods acc m sk :
  m ∈ mods -> plugins._load_one m = Some sk ->
  plugins._is_enabled (plugins.name sk) state = true ->
  is_Some (pydict.get (plugins.name sk) (plugins.load_loop state mods acc)).
Proof.
  intros Hin Hload Hen. revert acc.
  induction mods as [|m' mods IH]; intros acc; [by apply elem_of_nil in Hin|].
  apply elem_of_cons in Hin as [<-|Hin]; simpl.
  - rewrite Hload, Hen. apply load_loop_keeps. by rewrite pydict_get_set_eq.
  - destruct (plugins._load_one m') as [sk'|]; [|by apply IH].
    destruct (plugins._is_enabled (plugins.name sk') state); by apply IH.
Qed.

Lemma is_enabled_insert x b n state :
  plugins._is_enabled n (<[x := b]> state) =
  if decide (x = n) then b else plugins._is_enabled n state.
Proof.
  unfold plugins._is_enabled. rewrite lookup_insert. by case_decide.
Qed.

End loading.

(** C6. After [set_enabled(x, False)] a load gives an active set without
    [x].  After [set_enabled(x, True)] a further load gives back the active
    set there was when [x] was active before, and in any case holds [x]
    whenever a discovered module loads under that name.  A name that the
    persisted mapping does not mention counts as enabled, and a module
    loading under such a name is in the active set. *)
Theorem C6_enable_state {Ext} (x : string) (sf : plugins.state_file)
    (dir : plugins.directory Ext) :
  let off := snd (plugins.set_enabled x false sf) in
  let on := snd (plugins.set_enabled x true off) in
  pydict.get x (plugins.load_skills off dir) = None /\
  (is_Some (pydict.get x (plugins.load_skills sf dir)) ->
   plugins.load_skills on dir = plugins.load_skills sf dir) /\
  (forall m sk, m ∈ plugins._iter_skill_modules dir ->
     plugins._load_one m = Some sk -> plugins.name sk = x ->
     is_Some (pydict.get x (plugins.load_skills on dir))) /\
  (forall n, plugins._read_state sf !! n = None ->
     plugins._is_enabled n (plugins._read_state sf) = true) /\
  (forall m sk, m ∈ plugins._iter_skill_modules dir ->
     plugins._load_one m = Some sk ->
     plugins._read_state sf !! plugins.name sk = None ->
     is_Some (pydict.get (plugins.name sk) (plugins.load_skills sf dir))).
Proof.
  simpl. unfold plugins.load_skills, plugins._write_state. simpl.
  split; [|split; [|split; [|split]]].
  - rewrite load_loop_disabled; [done|].
    rewrite is_enabled_insert. by case_decide.
  - intros Hact. apply load_loop_ext. intros n.
    rewrite !is_enabled_insert. case_decide as Hn; [subst n|done].
    destruct (plugins._is_enabled x (plugins._read_state sf)) eqn:E; [done|].
    rewrite load_loop_disabled in Hact by done. by destruct Hact.
  - intros m sk Hin Hload <-. eapply load_loop_enabled; [done..|].
    rewrite is_enabled_insert. by case_decide.
  - intros n Hn. unfold plugins._is_enabled. by rewrite Hn.
  - intros m sk Hin Hload Hn. eapply load_loop_enabled; [done..|].
    unfold plugins._is_enabled. by rewrite Hn.
Qed.

(** C6 on the directory that holds skills/hello.py, with no state file *)
Lemma C6_enable_state_witness :
  pydict.get "hello"
    (plugins.load_skills (snd (plugins.set_enabled "hello" false plugins.NoState))
       demo.dir_hello) = None /\
  plugins.load_skills
    (snd (plugins.set_enabled "hello" true
            (snd (plugins.set_enabled "hello" false plugins.NoState))))
    demo.dir_hello
  = plugins.load_skills plugins.NoState demo.dir_hello /\
  pydict.keys (plugins.load_skills plugins.NoState demo.dir_hello) = ["hello"].
Proof.
  destruct (C6_enable_state "hello" plugins.NoState demo.dir_hello) as (H1 & H2 & _).
  split; [exact H1|]. split; [|reflexivity].
  apply H2. eexists. vm_compute. reflexivity.
Defined.

(** ** Scaffolding *)

Lemma sub_class_char (p : ascii -> bool) (r : ascii) (rs sn : list ascii) (fuel : nat) :
  length rs < fuel ->
  re.sub_from fuel false (re.Class p) [r] None sn rs =
  map (fun c => if p c then r else c) rs.
Proof.
  revert sn fuel. induction rs as [|x rs IH]; intros sn fuel Hf.
  - destruct fuel; [simpl in Hf; lia|]. done.
  - destruct fuel; [simpl in Hf; lia|]. simpl in Hf.
    cbn [re.sub_from re.rmatch re.rest re.class_has].
    destruct (p x) eqn:E.
    + unfold re.step1. cbn [re.rest re.seen length].
      replace (length rs <? S (length rs))%nat with true
        by (symmetry; apply Nat.ltb_lt; lia).
      cbn [map app]. rewrite E. f_equal. apply IH. lia.
    + cbn [map]. rewrite E. f_equal. apply IH. lia.
Qed.

Lemma string_of_map_chars (f : ascii -> ascii) (s : string) :
  string_of_list_ascii (map f (list_ascii_of_string s)) = text.map_chars f s.
Proof. induction s as [|c s IH]; simpl; [done|]. by rewrite IH. Qed.

Lemma sanitize_chars (name : string) :
  plugins.sanitize name =
  text.lower (text.map_chars (fun c => if text.is_word c then c else "_"%char) name).
Proof.
  unfold plugins.sanitize, re.sub, plugins.safe_re. f_equal.
  change (list_ascii_of_string "_") with ["_"%char].
  rewrite sub_class_char by lia.
  rewrite <- string_of_map_chars. f_equal. apply map_ext. intros c.
  by destruct (text.is_word c).
Qed.

(** C9. [scaffold] turns every character outside [A-Za-z0-9_] into an
    underscore and lowers the rest (["Foo Bar!"] gives [foo_bar_]); the
    path is that name with [.py]; a file already there keeps its text and
    the template is written only where there was none; no other file
    changes; and a second call gives the same path and leaves the
    directory as the first call left it. *)
Theorem C9_scaffold {Ext} (name : string) (dir : plugins.directory Ext) :
  let path := plugins.sanitize name +:+ ".py" in
  plugins.sanitize "Foo Bar!" = "foo_bar_" /\
  plugins.sanitize name =
    text.lower (text.map_chars (fun c => if text.is_word c then c else "_"%char) name) /\
  fst (plugins.scaffold name dir) = path /\
  plugins.source <$> (snd (plugins.scaffold name dir) !! path) =
    Some (default (plugins.template (plugins.sanitize name))
                  (plugins.source <$> (dir !! path))) /\
  delete path (snd (plugins.scaffold name dir)) = delete path dir /\
  plugins.scaffold name (snd (plugins.scaffold name dir)) = plugins.scaffold name dir.
Proof.
  simpl. split; [by vm_compute|]. split; [apply sanitize_chars|].
  unfold plugins.scaffold.
  destruct (dir !! (plugins.sanitize name +:+ ".py")) as [file|] eqn:E; simpl.
  - rewrite !E. simpl. done.
  - rewrite !lookup_insert_eq. simpl. split; [done|]. split; [done|].
    split; [|done]. by rewrite delete_insert_eq.
Qed.

(** ** Commands: basic facts *)

Section commands.
Context {Ext : Type}.
Implicit Types (s : context.state Ext) (txt : string).

Import context.

Lemma new_events_app s s' tr :
  out s' = out s ++ tr -> drivers.new_events s s' = tr.
Proof. intros H. unfold drivers.new_events. rewrite H. apply drop_app_length. Qed.

Lemma appended_app tr1 tr2 :
  drivers.appended (tr1 ++ tr2) = drivers.appended tr1 ++ drivers.appended tr2.
Proof. unfold drivers.appended. apply omap_app. Qed.

Lemma llm_calls_app tr1 tr2 :
  drivers.llm_calls (tr1 ++ tr2) = drivers.llm_calls tr1 ++ drivers.llm_calls tr2.
Proof. unfold drivers.llm_calls. apply List.filter_app. Qed.

Lemma appended_cons ev tr :
  drivers.appended (ev :: tr) =
  match ev with Append u b => [(u, b)] | _ => [] end ++ drivers.appended tr.
Proof. by destruct ev. Qed.

Lemma llm_calls_cons ev tr :
  drivers.llm_calls (ev :: tr) =
  (if drivers.is_llm_call ev then [ev] else []) ++ drivers.llm_calls tr.
Proof. unfold drivers.llm_calls. simpl. by destruct (drivers.is_llm_call ev). Qed.

Lemma appended_nil : drivers.appended [] = [].
Proof. done. Qed.

Lemma llm_calls_nil : drivers.llm_calls [] = [].
Proof. done. Qed.

Lemma appended_tts_log s txt : drivers.appended (drivers.tts_log s txt) = [].
Proof. unfold drivers.tts_log. by destruct (fst _). Qed.

Lemma llm_calls_tts_log s txt : drivers.llm_calls (drivers.tts_log s txt) = [].
Proof. unfold drivers.tts_log. by destruct (fst _). Qed.

Lemma appended_stream_prints printed chunks :
  drivers.appended (drivers.stream_prints printed chunks) = [].
Proof.
  revert printed. induction chunks as [|c chunks IH]; intros printed; simpl; [done|].
  destruct (text.truthy c); [|done].
  rewrite appended_app, appended_cons, IH. by destruct printed.
Qed.

Lemma llm_calls_stream_prints printed chunks :
  drivers.llm_calls (drivers.stream_prints printed chunks) = [].
Proof.
  revert printed. induction chunks as [|c chunks IH]; intros printed; simpl; [done|].
  destruct (text.truthy c); [|done].
  rewrite llm_calls_app, llm_calls_cons, IH. by destruct printed.
Qed.

Lemma speaks_app tr1 tr2 :
  drivers.speaks (tr1 ++ tr2) = drivers.speaks tr1 ++ drivers.speaks tr2.
Proof. unfold drivers.speaks. apply omap_app. Qed.

Lemma speaks_cons ev tr :
  drivers.speaks (ev :: tr) =
  match ev with Speak r => [r] | _ => [] end ++ drivers.speaks tr.
Proof. by destruct ev. Qed.

Lemma speaks_nil : drivers.speaks [] = [].
Proof. done. Qed.

Lemma speaks_tts_log s txt : drivers.speaks (drivers.tts_log s txt) = [].
Proof. unfold drivers.tts_log. by destruct (fst _). Qed.

Lemma speaks_stream_prints printed chunks :
  drivers.speaks (drivers.stream_prints printed chunks) = [].
Proof.
  revert printed. induction chunks as [|c chunks IH]; intros printed; simpl; [done|].
  destruct (text.truthy c); [|done].
  rewrite speaks_app, speaks_cons, IH. by destruct printed.
Qed.

(** the [try/except] around [speak] always returns *)
Lemma speak_or_log_spec txt s :
  speak_or_log txt s =
  (Ok tt,
   with_out (out s ++ Speak txt :: drivers.tts_log s txt)
     (with_ext (snd (speak (tts s) txt (voice_id s) (ext s))) s)).
Proof.
  unfold speak_or_log, try_except, bind, emit, ext_try, drivers.tts_log. simpl.
  destruct (speak (tts s) txt (voice_id s) (ext s)) as [[[]|e] x]; simpl.
  - done.
  - unfold with_out. simpl. by rewrite <- app_assoc.
Qed.

Lemma say_spec txt s :
  say txt s =
  match memory.append_conversation None (Some txt) (mem s) with
  | Ok f' => (Ok tt, with_mem f' (drivers.spoken txt s))
  | Raise e => (Raise e, drivers.spoken txt s)
  end.
Proof.
  unfold say, bind, emit at 1. rewrite speak_or_log_spec. simpl.
  unfold append_conversation, bind, emit, mem_write, drivers.spoken, drivers.said. simpl.
  destruct (memory.append_conversation None (Some txt) (mem s)); simpl.
  all: unfold with_out, with_mem; simpl; by rewrite <- !app_assoc.
Qed.

End commands.

Create Rewrite HintDb trace.
#[global] Hint Rewrite appended_app appended_cons appended_nil @appended_tts_log
  appended_stream_prints : trace.
#[global] Hint Rewrite llm_calls_app llm_calls_cons llm_calls_nil @llm_calls_tts_log
  llm_calls_stream_prints : trace.
#[global] Hint Rewrite speaks_app speaks_cons speaks_nil @speaks_tts_log
  speaks_stream_prints : trace.

#[global] Arguments context.speak_or_log : simpl never.
#[global] Arguments context.append_conversation : simpl never.
#[global] Arguments context.say : simpl never.
#[global] Arguments llm_path.with_preface : simpl never.
#[global] Arguments memory_bridge.relevant_facts : simpl never.
#[global] Arguments memory_bridge.memory_answer : simpl never.
#[global] Arguments memory.last_n : simpl never.

(** ** The reply fallback chain *)

Lemma preferred_ok f d ks :
  memory._read f = Ok d -> exists picks, memory_bridge.preferred f ks = Ok picks.
Proof.
  intros Hr. induction ks as [|k ks [picks IH]]; simpl; [eauto|].
  unfold memory.recall. rewrite Hr, IH. eauto.
Qed.

Lemma relevant_facts_ok f d txt limit :
  memory._read f = Ok d ->
  exists facts, memory_bridge.relevant_facts f txt limit = Ok facts.
Proof.
  intros Hr. unfold memory_bridge.relevant_facts, memory.facts_like. rewrite Hr.
  destruct (List.filter _ (memory.facts_of d)) as [|kv all]; [eauto|].
  destruct (List.filter _ (kv :: all)) as [|p picks]; [|eauto].
  destruct (preferred_ok f d memory_bridge.PREFERRED_FACT_KEYS Hr) as [picks ->]. eauto.
Qed.

(** rewrites [new_events s s'] in the goal into the events themselves *)
Ltac settle_events :=
  match goal with
  | |- context [drivers.new_events ?s ?x] =>
      let Hev := fresh "Hev" in
      eassert (Hev : drivers.new_events s x = _)
        by (apply new_events_app; simpl; rewrite <- ?app_assoc; reflexivity);
      rewrite !Hev; clear Hev
  end.

(** membership of an event that stands at the head of a tail of the list *)
Ltac find_event :=
  repeat match goal with
         | |- context [drivers.tts_log ?a ?b] =>
             let l := fresh "log" in generalize (drivers.tts_log a b); intros l
         | |- context [drivers.stream_prints ?a ?b] =>
             let l := fresh "prints" in generalize (drivers.stream_prints a b); intros l
         end;
  repeat first
    [ apply list_elem_of_here
    | apply list_elem_of_further
    | (apply elem_of_app; right) ].

Section fallback.
Context {Ext : Type}.
Implicit Types (s : context.state Ext).

Import context.

Lemma consume_spec chunks printed full s :
  llm_path.consume chunks printed full s =
  (Ok (printed || existsb text.truthy chunks, full ++ List.filter text.truthy chunks),
   with_out (out s ++ drivers.stream_prints printed chunks) s).
Proof.
  revert printed full s. induction chunks as [|c chunks IH]; intros printed full s.
  - simpl. rewrite orb_false_r, !app_nil_r. by destruct s.
  - cbn [llm_path.consume existsb List.filter drivers.stream_prints].
    destruct (text.truthy c) eqn:E.
    + unfold bind. destruct printed; simpl; rewrite IH; simpl;
        unfold with_out; simpl; rewrite <- !app_assoc; simpl; done.
    + rewrite IH. done.
Qed.

Lemma relevant_facts_raise f e txt limit :
  memory._read f = Raise e -> memory_bridge.relevant_facts f txt limit = Raise e.
Proof.
  intros Hr. unfold memory_bridge.relevant_facts, memory.facts_like. by rewrite Hr.
Qed.

(** what [llm_respond] does, call by call *)
Lemma llm_respond_spec s (user : string) :
  match memory._read (mem s) with
  | Raise x => llm_path.llm_respond user s = (Raise x, s)
  | Ok d =>
      exists facts,
        memory_bridge.relevant_facts (mem s) user 6 = Ok facts /\
        let prompt := llm_path.with_preface (memory_bridge.format_fact_context facts) user in
        let '(chunks, e1) := stream (llm s) prompt (ext s) in
        let '(r2, e2) := send (llm s) prompt e1 in
        let '(rr, e2') := reset (llm s) e2 in
        let '(r3, e3) := send (llm s) prompt e2' in
        let r1 := text.strip (text.join "" (List.filter text.truthy chunks)) in
        let printed := existsb text.truthy chunks in
        let shown :=
          LlmStream prompt :: drivers.stream_prints false chunks
          ++ (if printed then [Print (String text.nl "")] else []) in
        let ends (reply : string) (calls : list event) (e : Ext) :=
          text.truthy reply = true /\
          llm_path.llm_respond user s =
            (Ok tt,
             with_mem
               (memory.Stored
                  (memory.Doc (memory.facts d)
                     (Some (memory.last_n memory.MAX_CONVERSATIONS
                              (memory.conversations_of d
                               ++ [memory.Turn None (Some reply)])))))
               (with_ext (snd (speak (tts s) reply (voice_id s) e))
                  (with_out
                     (out s ++ calls ++ drivers.replied (with_ext e s) printed reply) s))) in
        if text.truthy r1 then ends r1 shown e1
        else if text.truthy r2 then ends r2 (shown ++ [LlmSend prompt]) e2
        else
          match rr with
          | Raise x =>
              llm_path.llm_respond user s =
                (Raise x,
                 with_ext e2' (with_out (out s ++ shown ++ [LlmSend prompt; LlmReset]) s))
          | Ok _ =>
              ends (if text.truthy r3 then r3 else llm_path.apology)
                (shown ++ [LlmSend prompt; LlmReset; LlmSend prompt]) e3
          end
  end.
Proof.
  destruct s as [llm0 tts0 vid f0 sk0 ro0 wk0 en0 dir0 ext0 out0]. cbn [mem llm tts voice_id ext out].
  destruct (memory._read f0) as [d|x] eqn:Hr.
  2: { unfold llm_path.llm_respond, bind, mem_read. cbn [mem].
       by rewrite (relevant_facts_raise f0 x user 6 Hr). }
  destruct (relevant_facts_ok f0 d user 6 Hr) as [facts Hfacts].
  exists facts. split; [exact Hfacts|]. cbv zeta.
  set (prompt := llm_path.with_preface (memory_bridge.format_fact_context facts) user).
  destruct (stream llm0 prompt ext0) as [chunks e1] eqn:Hstream.
  destruct (send llm0 prompt e1) as [r2 e2] eqn:Hsend1.
  destruct (reset llm0 e2) as [rr e2'] eqn:Hreset.
  destruct (send llm0 prompt e2') as [r3 e3] eqn:Hsend2.
  set (r1 := text.strip (text.join "" (List.filter text.truthy chunks))).
  pose proof (fun reply =>
    append_turn_spec None (Some reply) f0 d Hr (or_intror (mk_is_Some _ _ eq_refl)))
    as Hap.
  unfold llm_path.llm_respond, llm_path.llm_stream, llm_path.llm_send,
    llm_path.llm_reset, bind, mem_read, emit, ext_call, ext_try, ret.
  simpl. rewrite Hfacts. simpl. fold prompt. rewrite Hstream. simpl.
  rewrite consume_spec. simpl. fold r1.
  assert (Hapology : text.truthy llm_path.apology = true) by reflexivity.
  destruct (existsb text.truthy chunks) eqn:Hpr; simpl;
    (destruct (text.truthy r1) eqn:H1; simpl;
     [|rewrite Hsend1; simpl; destruct (text.truthy r2) eqn:H2; simpl;
       [|rewrite Hreset; simpl; destruct rr as [[]|x]; simpl;
         [rewrite Hsend2; simpl; destruct (text.truthy r3) eqn:H3; simpl|]]]).
  all: repeat (match goal with H : text.truthy _ = _ |- _ => rewrite H end; simpl).
  all: try (split; [reflexivity|]).
  all: try (rewrite speak_or_log_spec;
            unfold append_conversation, bind, emit, mem_write; simpl;
            rewrite Hap; simpl).
  all: f_equal.
  all: unfold drivers.replied, drivers.tts_log.
  all: lazy [with_mem with_ext with_out llm tts voice_id mem skills router wake
             enabled_json skills_dir ext out].
  all: rewrite <- ?app_assoc; cbn [app]; reflexivity.
Qed.

(** how a run of [llm_respond] ends: with one reply, spoken and logged as
    a bot turn, or with an error before anything is spoken or logged *)
Lemma llm_respond_run s (user : string) (r : res unit) s' :
  llm_path.llm_respond user s = (r, s') ->
  exists tr,
    out s' = out s ++ tr /\
    match r with
    | Ok _ =>
        exists reply d,
          drivers.speaks tr = [reply] /\
          drivers.appended tr = [drivers.bot reply] /\
          drivers.llm_calls tr <> [] /\
          memory._read (mem s) = Ok d /\
          mem s' =
            memory.Stored
              (memory.Doc (memory.facts d)
                 (Some (memory.last_n memory.MAX_CONVERSATIONS
                          (memory.conversations_of d ++ [memory.Turn None (Some reply)]))))
    | Raise _ => drivers.speaks tr = [] /\ drivers.appended tr = [] /\ mem s' = mem s
    end.
Proof.
  intros Hrun. pose proof (llm_respond_spec s user) as H.
  destruct (memory._read (mem s)) as [d|x] eqn:Hr.
  2: { rewrite H in Hrun. injection Hrun as <- <-. exists []. by rewrite app_nil_r. }
  destruct H as (facts & _ & H). cbv zeta in H.
  destruct (stream (llm s) _ (ext s)) as [chunks e1].
  destruct (send (llm s) _ e1) as [r2 e2].
  destruct (reset (llm s) e2) as [rr e2'].
  destruct (send (llm s) _ e2') as [r3 e3].
  assert (Hends : forall reply calls e,
    drivers.appended calls = [] -> drivers.speaks calls = [] ->
    drivers.llm_calls calls <> [] ->
    llm_path.llm_respond user s =
      (Ok tt,
       with_mem
         (memory.Stored
            (memory.Doc (memory.facts d)
               (Some (memory.last_n memory.MAX_CONVERSATIONS
                        (memory.conversations_of d ++ [memory.Turn None (Some reply)])))))
         (with_ext (snd (speak (tts s) reply (voice_id s) e))
            (with_out
               (out s ++ calls ++
                drivers.replied (with_ext e s) (existsb text.truthy chunks) reply) s))) ->
    exists tr,
      out s' = out s ++ tr /\
      match r with
      | Ok _ =>
          exists reply d0,
            drivers.speaks tr = [reply] /\
            drivers.appended tr = [drivers.bot reply] /\
            drivers.llm_calls tr <> [] /\
            Ok d = Ok d0 /\
            mem s' =
              memory.Stored
                (memory.Doc (memory.facts d0)
                   (Some (memory.last_n memory.MAX_CONVERSATIONS
                            (memory.conversations_of d0 ++ [memory.Turn None (Some reply)]))))
      | Raise _ => drivers.speaks tr = [] /\ drivers.appended tr = [] /\ mem s' = mem s
      end).
  { intros reply calls e Hca Hcs Hcl E. rewrite E in Hrun. injection Hrun as <- <-.
    eexists. split; [reflexivity|]. exists reply, d.
    unfold drivers.replied.
    rewrite !speaks_app, !appended_app, !llm_calls_app, Hca, Hcs.
    rewrite speaks_tts_log, appended_tts_log.
    split; [by destruct (existsb _ _)|]. split; [by destruct (existsb _ _)|].
    split; [|done].
    intros Hnil. apply app_eq_nil in Hnil as [Hnil _]. by apply Hcl. }
  set (shown := LlmStream _ :: _ ++ _) in H.
  assert (Hshown : drivers.appended shown = [] /\ drivers.speaks shown = [] /\
                   drivers.llm_calls shown <> []).
  { subst shown. rewrite appended_cons, speaks_cons, llm_calls_cons.
    rewrite appended_app, speaks_app, appended_stream_prints, speaks_stream_prints.
    split; [by destruct (existsb _ _)|]. split; [by destruct (existsb _ _)|]. done. }
  destruct Hshown as (Hsa & Hss & Hsl). clearbody shown.
  destruct (text.truthy (text.strip _)).
  { destruct H as [_ H]. by eapply Hends. }
  destruct (text.truthy r2).
  { destruct H as [_ H]. eapply Hends; [| | |exact H].
    - by rewrite appended_app, Hsa.
    - by rewrite speaks_app, Hss.
    - rewrite llm_calls_app. intros Hnil. by apply app_eq_nil in Hnil as [Hnil _]. }
  destruct rr as [[]|x].
  - destruct H as [_ H]. eapply Hends; [| | |exact H].
    + by rewrite appended_app, Hsa.
    + by rewrite speaks_app, Hss.
    + rewrite llm_calls_app. intros Hnil. by apply app_eq_nil in Hnil as [Hnil _].
  - rewrite H in Hrun. injection Hrun as <- <-. eexists. split; [reflexivity|].
    rewrite speaks_app, appended_app, Hsa, Hss. done.
Qed.

(** C1, amended.  [llm_respond] first reads the fact store, outside any
    [try]: on an unreadable store it raises at once and nothing else
    happens.  On a readable store the stages run in this order: the
    stream, whose non-empty chunks are printed as they come, then joined
    and stripped; if that text is empty, a send on the same session; if
    that is empty too, a reset of the session, which may raise (then
    [llm_respond] raises, with nothing spoken or logged), and a second
    send; and at last the fixed apology.  The reply is never empty.  It is
    printed after [Orion:] only if no chunk was printed: one blank chunk is
    enough for the reply never to be printed.  It is then handed to
    [speak], whose failure is caught and printed, and one bot turn holding
    it is appended to the log, cut to the cap.  The events and the final
    state are exactly these. *)
Theorem C1_llm_fallback s (user : string) :
  match memory._read (mem s) with
  | Raise x => llm_path.llm_respond user s = (Raise x, s)
  | Ok d =>
      exists facts,
        memory_bridge.relevant_facts (mem s) user 6 = Ok facts /\
        let prompt := llm_path.with_preface (memory_bridge.format_fact_context facts) user in
        let '(chunks, e1) := stream (llm s) prompt (ext s) in
        let '(r2, e2) := send (llm s) prompt e1 in
        let '(rr, e2') := reset (llm s) e2 in
        let '(r3, e3) := send (llm s) prompt e2' in
        let r1 := text.strip (text.join "" (List.filter text.truthy chunks)) in
        let printed := existsb text.truthy chunks in
        let shown :=
          LlmStream prompt :: drivers.stream_prints false chunks
          ++ (if printed then [Print (String text.nl "")] else []) in
        let ends (reply : string) (calls : list event) (e : Ext) :=
          text.truthy reply = true /\
          llm_path.llm_respond user s =
            (Ok tt,
             with_mem
               (memory.Stored
                  (memory.Doc (memory.facts d)
                     (Some (memory.last_n memory.MAX_CONVERSATIONS
                              (memory.conversations_of d
                               ++ [memory.Turn None (Some reply)])))))
               (with_ext (snd (speak (tts s) reply (voice_id s) e))
                  (with_out
                     (out s ++ calls ++ drivers.replied (with_ext e s) printed reply) s))) in
        if text.truthy r1 then ends r1 shown e1
        else if text.truthy r2 then ends r2 (shown ++ [LlmSend prompt]) e2
        else
          match rr with
          | Raise x =>
              llm_path.llm_respond user s =
                (Raise x,
                 with_ext e2' (with_out (out s ++ shown ++ [LlmSend prompt; LlmReset]) s))
          | Ok _ =>
              ends (if text.truthy r3 then r3 else llm_path.apology)
                (shown ++ [LlmSend prompt; LlmReset; LlmSend prompt]) e3
          end
  end.
Proof. exact (llm_respond_spec s user). Qed.

End fallback.

(** C1, as the claim states it, fails in three ways.  A stream of one
    blank chunk, followed by a send that answers: the text of the chunks
    is not empty, yet the send is made, and its answer is spoken and
    logged but never printed.  A memory file that has become malformed:
    [llm_respond] raises before any call on the LLM, and no turn is
    appended.  A session whose reset raises: [llm_respond] raises after
    the reset, with no reply and no turn appended. *)
Lemma C1_counterexample :
  (let st := demo.later demo.llm_blank_chunk demo.tts_broken
               (memory.Stored memory.empty_document) in
   exists s',
     llm_path.llm_respond "tell me a joke" st = (Ok tt, s') /\
     drivers.new_events st s' =
       [context.LlmStream "tell me a joke";
        context.Print "Orion: "; context.Print " "; context.Print (String text.nl "");
        context.LlmSend "tell me a joke";
        context.Speak "Hello"; context.Print "[TTS] voice_not_found";
        context.Append None (Some "Hello")]) /\
  (let st := demo.later demo.llm_after_reset demo.tts_fine memory.Malformed in
   llm_path.llm_respond "tell me a joke" st = (Raise JSONDecodeError, st)) /\
  (let st := demo.later demo.llm_no_session demo.tts_fine
               (memory.Stored memory.empty_document) in
   exists s',
     llm_path.llm_respond "tell me a joke" st = (Raise (External "no backend"), s') /\
     drivers.new_events st s' =
       [context.LlmStream "tell me a joke"; context.LlmSend "tell me a joke";
        context.LlmReset] /\
     context.mem s' = memory.Stored memory.empty_document).
Proof.
  split; [|split].
  - eexists. split; vm_compute; reflexivity.
  - vm_compute. reflexivity.
  - eexists. split; [|split]; vm_compute; reflexivity.
Qed.

(** ** The admin handlers and the dispatch of one utterance *)

#[global] Arguments llm_path.llm_respond : simpl never.
#[global] Arguments admin.handle_skill_admin : simpl never.
#[global] Arguments admin.handle_memory_admin : simpl never.

Lemma answer_qmap_ok f d s qmap :
  memory._read f = Ok d ->
  match memory_bridge.answer_qmap f s qmap with
  | Some (Raise _) => False
  | _ => True
  end.
Proof.
  intros Hr. induction qmap as [|[[rx key] template] qmap IH]; simpl; [done|].
  destruct (re.search false rx s); [|done].
  unfold memory.recall. rewrite Hr. by destruct (memory_bridge.is_truthy _).
Qed.

Lemma memory_answer_ok f d txt :
  memory._read f = Ok d -> exists ans, memory_bridge.memory_answer f txt = Ok ans.
Proof.
  intros Hr. unfold memory_bridge.memory_answer.
  pose proof (answer_qmap_ok f d (text.strip (text.lower txt)) memory_bridge.QMAP Hr) as Hq.
  destruct (memory_bridge.answer_qmap _ _ _) as [[a|e]|]; [eauto|done|].
  destruct (re.search false memory_bridge.generic_re _); [|eauto].
  unfold memory.recall. rewrite Hr.
  destruct (memory_bridge.is_truthy (pydict.get _ _)); simpl;
    destruct (memory_bridge.is_truthy _); eauto.
Qed.

Lemma memory_answer_unreadable f txt e :
  memory_bridge.memory_answer f txt = Raise e -> memory.readable f = false.
Proof.
  intros H. unfold memory.readable.
  destruct (memory._read f) as [d|e'] eqn:Hr; [|done].
  destruct (memory_answer_ok f d txt Hr) as [ans Hans]. congruence.
Qed.

Lemma read_raise_ops f e :
  memory._read f = Raise e ->
  (forall k, memory.recall k f = Raise e) /\
  (forall needle, memory.facts_like needle f = Raise e) /\
  (forall k v, memory.remember k v f = Raise e) /\
  (forall u b, memory.append_conversation u b f = Raise e).
Proof.
  intros Hr.
  unfold memory.recall, memory.facts_like, memory.remember, memory.append_conversation.
  rewrite Hr. done.
Qed.

Lemma answer_qmap_raise f e s qmap :
  memory._read f = Raise e ->
  memory_bridge.answer_qmap f s qmap = None \/
  memory_bridge.answer_qmap f s qmap = Some (Raise e).
Proof.
  intros Hr. induction qmap as [|[[rx key] template] qmap IH]; simpl; [by left|].
  destruct (re.search false rx s); [|exact IH].
  right. by rewrite (proj1 (read_raise_ops f e Hr)).
Qed.

Lemma memory_answer_raise f e txt :
  memory._read f = Raise e ->
  memory_bridge.memory_answer f txt = Ok None \/
  memory_bridge.memory_answer f txt = Raise e.
Proof.
  intros Hr. unfold memory_bridge.memory_answer.
  destruct (answer_qmap_raise f e (text.strip (text.lower txt)) memory_bridge.QMAP Hr)
    as [-> | ->]; [|by right].
  destruct (re.search false memory_bridge.generic_re _) as [m|]; [|by left].
  right. by rewrite (proj1 (read_raise_ops f e Hr)).
Qed.

Section dispatch.
Context {Ext : Type}.
Implicit Types (s : context.state Ext) (txt : string).

Import context.

Lemma new_events_trans s s1 s2 tr1 tr2 :
  out s1 = out s ++ tr1 -> out s2 = out s1 ++ tr2 ->
  drivers.new_events s s2 = tr1 ++ tr2.
Proof.
  intros H1 H2. apply new_events_app. by rewrite H2, H1, app_assoc.
Qed.

Lemma out_spoken txt s : out (drivers.spoken txt s) = out s ++ drivers.said s txt.
Proof. done. Qed.

Lemma mem_spoken txt s : mem (drivers.spoken txt s) = mem s.
Proof. done. Qed.

Lemma appended_said s txt : drivers.appended (drivers.said s txt) = [(None, Some txt)].
Proof.
  unfold drivers.said. rewrite !appended_app, appended_tts_log. done.
Qed.

(** a reply followed by [return True] *)
Lemma say_true_spec txt s :
  (do say txt then ret true) s =
  match memory.append_conversation None (Some txt) (mem s) with
  | Ok f' => (Ok true, with_mem f' (drivers.spoken txt s))
  | Raise e => (Raise e, drivers.spoken txt s)
  end.
Proof.
  unfold bind. rewrite say_spec.
  by destruct (memory.append_conversation None (Some txt) (mem s)).
Qed.

(** [handle_skill_admin] either declines and changes nothing, or changes
    the skills, the enable state or the skills directory and says one
    reply *)
Lemma skill_admin_cases low s :
  admin.handle_skill_admin low s = (Ok false, s) \/
  exists txt s1,
    mem s1 = mem s /\ out s1 = out s /\
    admin.handle_skill_admin low s = (do say txt then ret true) s1.
Proof.
  unfold admin.handle_skill_admin.
  repeat case_match.
  all: try (left; reflexivity).
  all: right.
  all: try (eexists _, s; split; [reflexivity|]; split; reflexivity).
  all: unfold bind at 1;
    unfold admin.reload_skills, admin.installed_skills, admin.set_enabled, admin.scaffold.
  all: try (eexists _, _; split; [|split; [|reflexivity]]; reflexivity).
  destruct (plugins.scaffold _ _) as [p dir'].
  eexists _, _; split; [|split; [|reflexivity]]; reflexivity.
Qed.

Lemma bind_mem_read {A B} (op : memory.disk_file -> res A) (k : A -> M Ext B) s :
  (let* x := mem_read op in k x) s =
  match op (mem s) with
  | Ok a => k a s
  | Raise e => (Raise e, s)
  end.
Proof. unfold bind, mem_read. by destruct (op (mem s)). Qed.

Lemma bind_mem_write {B} (op : memory.disk_file -> res memory.disk_file) (k : M Ext B) s :
  (do mem_write op then k) s =
  match op (mem s) with
  | Ok f => k (with_mem f s)
  | Raise e => (Raise e, s)
  end.
Proof. unfold bind, mem_write. by destruct (op (mem s)). Qed.

(** [handle_memory_admin] either declines and changes nothing, or fails
    to read an unreadable store, or reads or updates the facts and says one
    reply *)
Lemma memory_admin_cases low s :
  admin.handle_memory_admin low s = (Ok false, s) \/
  (exists e, admin.handle_memory_admin low s = (Raise e, s) /\
             memory.readable (mem s) = false) \/
  exists txt s1,
    out s1 = out s /\
    (forall d, memory._read (mem s) = Ok d ->
       exists d1, memory._read (mem s1) = Ok d1 /\
                  memory.conversations_of d1 = memory.conversations_of d) /\
    admin.handle_memory_admin low s = (do say txt then ret true) s1.
Proof.
  unfold admin.handle_memory_admin.
  destruct (re.fullmatch true admin.MEM_LIST_RE low) as [m|].
  { rewrite bind_mem_read. unfold memory.facts_like, memory.readable.
    destruct (memory._read (mem s)) as [d|e] eqn:Hr.
    - right; right. case_match;
        (eexists _, s; split; [reflexivity|]; split; [|reflexivity]);
        intros d0 Hd0; exists d0; split; congruence.
    - right; left. by exists e. }
  destruct (re.fullmatch true admin.MEM_GET_RE low) as [m|].
  { rewrite bind_mem_read. unfold memory.readable.
    destruct (memory._read (mem s)) as [d|e] eqn:Hr.
    - right; right. unfold memory.recall at 1. rewrite Hr.
      destruct (memory_bridge.is_truthy _).
      + unfold bind at 1, ret at 1.
        eexists _, s; split; [reflexivity|]; split; [|reflexivity].
        intros d0 Hd0; exists d0; split; congruence.
      + rewrite bind_mem_read. unfold memory.recall at 1. rewrite Hr.
        eexists _, s; split; [reflexivity|]; split; [|reflexivity].
        intros d0 Hd0; exists d0; split; congruence.
    - right; left. exists e. unfold memory.recall. by rewrite Hr. }
  destruct (re.fullmatch true admin.MEM_SET_RE low) as [m|].
  { rewrite bind_mem_write. unfold memory.remember, memory.readable.
    destruct (memory._read (mem s)) as [d|e] eqn:Hr.
    - right; right. eexists _, _. split; [|split; [|reflexivity]]; [reflexivity|].
      intros d0 Hd0. injection Hd0 as <-. eexists. split; reflexivity.
    - right; left. by exists e. }
  by left.
Qed.

Lemma memory_admin_raise low s e :
  memory._read (mem s) = Raise e ->
  admin.handle_memory_admin low s = (Ok false, s) \/
  admin.handle_memory_admin low s = (Raise e, s).
Proof.
  intros Hr. destruct (read_raise_ops (mem s) e Hr) as (Hrecall & Hlike & Hrem & _).
  unfold admin.handle_memory_admin.
  destruct (re.fullmatch true admin.MEM_LIST_RE low).
  { right. by rewrite bind_mem_read, Hlike. }
  destruct (re.fullmatch true admin.MEM_GET_RE low).
  { right. by rewrite bind_mem_read, Hrecall. }
  destruct (re.fullmatch true admin.MEM_SET_RE low).
  { right. by rewrite bind_mem_write, Hrem. }
  by left.
Qed.

(** what [say] adds holds no call on a router, a skill or the LLM *)
Lemma said_quiet s txt ev : ev ∈ drivers.said s txt -> drivers.is_dispatch ev = false.
Proof.
  unfold drivers.said, drivers.tts_log. intros H.
  apply elem_of_app in H as [H|H].
  { apply elem_of_cons in H as [->|H]; [done|].
    apply elem_of_cons in H as [->|H]; [done|]. by apply elem_of_nil in H. }
  apply elem_of_app in H as [H|H].
  { destruct (fst _); [by apply elem_of_nil in H|].
    apply elem_of_cons in H as [->|H]; [done|]. by apply elem_of_nil in H. }
  apply elem_of_cons in H as [->|H]; [done|]. by apply elem_of_nil in H.
Qed.

(** a reply followed by the end of the iteration *)
Lemma say_stage_spec (stg : runtime.stage) txt s :
  (do say txt then ret stg) s =
  match memory.append_conversation None (Some txt) (mem s) with
  | Ok f' => (Ok stg, with_mem f' (drivers.spoken txt s))
  | Raise e => (Raise e, drivers.spoken txt s)
  end.
Proof.
  unfold bind. rewrite say_spec.
  by destruct (memory.append_conversation None (Some txt) (mem s)).
Qed.

Lemma append_conversation_cmd (u b : option string) s :
  append_conversation u b s =
  match memory.append_conversation u b (mem s) with
  | Ok f => (Ok tt, with_mem f (with_out (out s ++ [Append u b]) s))
  | Raise e => (Raise e, with_out (out s ++ [Append u b]) s)
  end.
Proof.
  unfold append_conversation, bind, emit, mem_write. simpl.
  by destruct (memory.append_conversation u b (mem s)).
Qed.

Lemma process_command_unfold raw s :
  runtime.process_command raw s =
  let user := runtime.command_text (wake s) raw in
  let low := text.strip (text.lower user) in
  match admin.handle_skill_admin low s with
  | (Ok true, s1) => (Ok runtime.SkillAdmin, s1)
  | (Ok false, s1) =>
      match admin.handle_memory_admin low s1 with
      | (Ok true, s2) => (Ok runtime.MemoryAdmin, s2)
      | (Ok false, s2) =>
          match memory_bridge.memory_answer (mem s2) user with
          | Ok ans =>
              match memory_bridge.is_truthy ans with
              | Some a => (do say a then ret runtime.FastPath) s2
              | None => runtime.dispatch user s2
              end
          | Raise e => (Raise e, s2)
          end
      | (Raise e, s2) => (Raise e, s2)
      end
  | (Raise e, s1) => (Raise e, s1)
  end.
Proof.
  unfold runtime.process_command. unfold bind at 1 2. cbv beta iota zeta.
  destruct (admin.handle_skill_admin _ s) as [[[]|e] s1]; [done| |done].
  unfold bind at 1.
  destruct (admin.handle_memory_admin _ s1) as [[[]|e] s2]; [done| |done].
  rewrite bind_mem_read.
  destruct (memory_bridge.memory_answer _ _) as [ans|e]; [|done].
  by destruct (memory_bridge.is_truthy ans).
Qed.

(** what the handlers and the fast path leave to [dispatch] *)
Lemma front_cases raw s :
  let user := runtime.command_text (wake s) raw in
  (exists stg txt s1,
     (stg = runtime.SkillAdmin \/ stg = runtime.MemoryAdmin \/ stg = runtime.FastPath) /\
     out s1 = out s /\
     (forall d, memory._read (mem s) = Ok d ->
        exists d1, memory._read (mem s1) = Ok d1 /\
                   memory.conversations_of d1 = memory.conversations_of d) /\
     runtime.process_command raw s = (do say txt then ret stg) s1) \/
  (exists e, runtime.process_command raw s = (Raise e, s) /\
             memory.readable (mem s) = false) \/
  runtime.process_command raw s = runtime.dispatch user s.
Proof.
  intros user. rewrite process_command_unfold. cbv zeta. fold user.
  set (low := text.strip (text.lower user)).
  destruct (skill_admin_cases low s) as [->|(txt & s1 & Hmem & Hout & ->)].
  2: { left. exists runtime.SkillAdmin, txt, s1. split; [by left|]. split; [done|].
       split; [intros d Hd; exists d; split; [by rewrite Hmem|done]|].
       rewrite say_true_spec, say_stage_spec. by destruct (memory.append_conversation _ _ _). }
  destruct (memory_admin_cases low s)
    as [->|[(e & -> & Hunread)|(txt & s1 & Hout & Hmem & ->)]].
  2: { right; left. exists e. split; [reflexivity|exact Hunread]. }
  2: { left. exists runtime.MemoryAdmin, txt, s1. split; [by right; left|]. split; [done|].
       split; [done|].
       rewrite say_true_spec, say_stage_spec. by destruct (memory.append_conversation _ _ _). }
  destruct (memory_bridge.memory_answer (mem s) user) as [ans|e] eqn:Hans.
  2: { right; left. exists e. split; [done|].
       eapply memory_answer_unreadable. exact Hans. }
  destruct (memory_bridge.is_truthy ans) as [a|].
  - left. exists runtime.FastPath, a, s. split; [by right; right|]. split; [done|].
    split; [eauto|]. done.
  - by right; right.
Qed.

(** the legacy block never serves: the dispatch to skills/registry.py
    raises and the exception is caught *)
Lemma try_legacy_spec user s :
  exists tr,
    runtime.try_legacy user s = (Ok false, with_out (out s ++ LegacyRoute user :: tr) s) /\
    drivers.appended tr = [].
Proof.
  unfold runtime.try_legacy, bind, emit, try_except, runtime.legacy_dispatch, ret.
  destruct (router.route user) as [legacy|].
  - eexists [_]. split.
    + cbv beta iota. f_equal. unfold with_out. cbn [out]. by rewrite <- app_assoc.
    + reflexivity.
  - exists []. split; [|reflexivity]. done.
Qed.

Lemma run_skill_spec sk user s :
  runtime.run_skill sk user s =
  let '(r, f, e) := plugins.run sk user (mem s) (ext s) in
  (r, with_ext e (with_mem f (with_out (out s ++ [SkillRun (plugins.name sk)]) s))).
Proof.
  unfold runtime.run_skill, bind, emit. cbv beta iota.
  change (mem (with_out _ s)) with (mem s).
  change (ext (with_out _ s)) with (ext s).
  by destruct (plugins.run sk user (mem s) (ext s)) as [[r f] e].
Qed.

(** the plugin block, by what the router finds and what the skill does *)
Lemma try_plugin_spec user s :
  runtime.try_plugin user s =
  let s1 := with_out (out s ++ [Route user]) s in
  match plugins.route (router s) user with
  | None => (Ok false, s1)
  | Some sk =>
      let '(r, f3, e3) := plugins.run sk user (mem s) (ext s) in
      let s4 := with_ext e3 (with_mem f3
                  (with_out (out s1 ++ [SkillRun (plugins.name sk)]) s1)) in
      match r with
      | Raise e =>
          (Ok false,
           with_out (out s4 ++ [Print (runtime.skill_error_text (plugins.name sk) e)]) s4)
      | Ok result =>
          match memory.append_conversation None (Some result) f3 with
          | Ok f4 => (Ok true, with_mem f4 (drivers.spoken result s4))
          | Raise e =>
              (Ok false,
               with_out (out (drivers.spoken result s4)
                         ++ [Print (runtime.skill_error_text (plugins.name sk) e)])
                 (drivers.spoken result s4))
          end
      end
  end.
Proof.
  cbv zeta. set (s1 := with_out (out s ++ [Route user]) s).
  unfold runtime.try_plugin. unfold bind at 1 2, emit at 1.
  cbv beta iota. fold s1. change (router s1) with (router s).
  destruct (plugins.route (router s) user) as [sk|]; [|done].
  unfold try_except. unfold bind at 1. rewrite run_skill_spec.
  change (mem s1) with (mem s). change (ext s1) with (ext s).
  destruct (plugins.run sk user (mem s) (ext s)) as [[[result|e] f3] e3]; cbv beta iota zeta.
  - rewrite say_true_spec.
    change (mem (with_ext e3 (with_mem f3 _))) with f3.
    by destruct (memory.append_conversation None (Some result) f3) as [f4|e].
  - reflexivity.
Qed.

Lemma dispatch_unfold user s :
  runtime.dispatch user s =
  match memory.append_conversation (Some user) None (mem s) with
  | Raise e => (Raise e, with_out (out s ++ [Append (Some user) None]) s)
  | Ok f2 =>
      match runtime.try_plugin user
              (with_mem f2 (with_out (out s ++ [Append (Some user) None]) s)) with
      | (Ok true, s3) => (Ok runtime.Plugin, s3)
      | (Ok false, s3) =>
          match runtime.try_legacy user s3 with
          | (Ok true, s4) => (Ok runtime.Legacy, s4)
          | (Ok false, s4) =>
              match llm_path.llm_respond user s4 with
              | (Ok _, s5) => (Ok runtime.Llm, s5)
              | (Raise e, s5) => (Raise e, s5)
              end
          | (Raise e, s4) => (Raise e, s4)
          end
      | (Raise e, s3) => (Raise e, s3)
      end
  end.
Proof.
  unfold runtime.dispatch. unfold bind at 1. rewrite append_conversation_cmd.
  destruct (memory.append_conversation (Some user) None (mem s)) as [f2|e]; [|done].
  unfold bind at 1.
  destruct (runtime.try_plugin user _) as [[[]|e] s3]; [done| |done].
  unfold bind at 1.
  destruct (runtime.try_legacy user s3) as [[[]|e] s4]; [done| |done].
  unfold bind, ret.
  by destruct (llm_path.llm_respond user s4) as [[[]|e] s5].
Qed.

Lemma speaks_said s txt : drivers.speaks (drivers.said s txt) = [txt].
Proof.
  unfold drivers.said. rewrite !speaks_app, speaks_tts_log. done.
Qed.

(** a call that carries a turn and returns was made on a readable file *)
Lemma append_turn_inv (u b : option string) f f' :
  is_Some u \/ is_Some b ->
  memory.append_conversation u b f = Ok f' ->
  exists d,
    memory._read f = Ok d /\
    f' = memory.Stored
           (memory.Doc (memory.facts d)
              (Some (memory.last_n memory.MAX_CONVERSATIONS
                       (memory.conversations_of d ++ [memory.Turn u b])))).
Proof.
  intros Hub Hap. destruct (memory._read f) as [d|e] eqn:Hr.
  - exists d. split; [done|].
    rewrite (append_turn_spec u b f d Hr Hub) in Hap. by injection Hap as <-.
  - by rewrite (proj2 (proj2 (proj2 (read_raise_ops f e Hr)))) in Hap.
Qed.

(** the turn appended last is the last of the log *)
Lemma logged_last (fs : option (pydict.t string)) (l : list memory.turn) (t : memory.turn) :
  exists d',
    memory._read
      (memory.Stored
         (memory.Doc fs (Some (memory.last_n memory.MAX_CONVERSATIONS (l ++ [t]))))) = Ok d' /\
    memory.conversations_of d' = memory.last_n memory.MAX_CONVERSATIONS (l ++ [t]) /\
    last (memory.conversations_of d') = Some t.
Proof.
  eexists. split; [reflexivity|]. split; [reflexivity|].
  cbn [memory.conversations_of memory.conversations from_option id default].
  unfold memory.last_n, memory.MAX_CONVERSATIONS. rewrite length_app. cbn [length].
  rewrite drop_app_le by lia. apply last_snoc.
Qed.

(** a reply followed by the end of the iteration, as a run *)
Lemma say_stage_run (stg : runtime.stage) txt s s1 (r : res runtime.stage) s' :
  out s1 = out s ->
  (do say txt then ret stg) s1 = (r, s') ->
  drivers.new_events s s' = drivers.said s1 txt /\
  match memory._read (mem s1) with
  | Ok d1 =>
      r = Ok stg /\
      mem s' =
        memory.Stored
          (memory.Doc (memory.facts d1)
             (Some (memory.last_n memory.MAX_CONVERSATIONS
                      (memory.conversations_of d1 ++ [memory.Turn None (Some txt)]))))
  | Raise e => r = Raise e /\ mem s' = mem s1
  end.
Proof.
  intros Hout E. rewrite say_stage_spec in E.
  destruct (memory._read (mem s1)) as [d1|e] eqn:Hr.
  - rewrite (append_turn_spec None (Some txt) (mem s1) d1 Hr) in E
      by (right; eexists; reflexivity).
    injection E as <- <-. split; [|done].
    apply new_events_app. cbn [out with_mem drivers.spoken with_out]. by rewrite Hout.
  - rewrite (proj2 (proj2 (proj2 (read_raise_ops (mem s1) e Hr)))) in E.
    injection E as <- <-. split; [|done].
    apply new_events_app. cbn [out drivers.spoken with_out]. by rewrite Hout.
Qed.

(** what the handlers and the fast path leave to [dispatch], with what
    each case says of the store; [declined] says that neither handler took
    the utterance and that the fast path had no answer *)
Lemma front_run raw s :
  let user := runtime.command_text (wake s) raw in
  let low := text.strip (text.lower user) in
  let declined :=
    admin.handle_skill_admin low s = (Ok false, s) /\
    admin.handle_memory_admin low s = (Ok false, s) /\
    exists ans, memory_bridge.memory_answer (mem s) user = Ok ans /\
                memory_bridge.is_truthy ans = None in
  (exists stg txt s1,
     (stg = runtime.SkillAdmin \/ stg = runtime.MemoryAdmin \/ stg = runtime.FastPath) /\
     out s1 = out s /\
     match memory._read (mem s) with
     | Ok d => exists d1, memory._read (mem s1) = Ok d1 /\
                          memory.conversations_of d1 = memory.conversations_of d
     | Raise e => memory._read (mem s1) = Raise e
     end /\
     runtime.process_command raw s = (do say txt then ret stg) s1 /\
     ~ declined) \/
  (exists e, runtime.process_command raw s = (Raise e, s) /\
             memory.readable (mem s) = false /\
             ~ declined) \/
  (runtime.process_command raw s = runtime.dispatch user s /\ declined).
Proof.
  intros user low declined. subst declined.
  rewrite process_command_unfold. cbv zeta. fold user. fold low.
  destruct (skill_admin_cases low s) as [Esk|(txt & s1 & Hmem & Hout & Esk)]; rewrite Esk.
  2: { left. exists runtime.SkillAdmin, txt, s1. split; [by left|]. split; [done|].
       split.
       { rewrite Hmem. destruct (memory._read (mem s)) as [d|e]; [|done].
         by exists d. }
       rewrite say_true_spec, say_stage_spec.
       split; [by destruct (memory.append_conversation _ _ _)|].
       intros [E _]. by destruct (memory.append_conversation _ _ _). }
  destruct (memory_admin_cases low s)
    as [Ema|[(e & Ema & Hunread)|(txt & s1 & Hout & Hmem & Ema)]]; rewrite Ema.
  2: { right; left. exists e. split; [reflexivity|]. split; [exact Hunread|].
       by intros (_ & E & _). }
  2: { left. exists runtime.MemoryAdmin, txt, s1. split; [by right; left|]. split; [done|].
       split.
       { destruct (memory._read (mem s)) as [d|e] eqn:Hr; [by apply Hmem|].
         exfalso. rewrite say_true_spec in Ema.
         destruct (memory_admin_raise low s e Hr) as [E|E]; rewrite E in Ema.
         - by destruct (memory.append_conversation _ _ _).
         - destruct (memory.append_conversation _ _ _); [done|].
           injection Ema as _ Hs. apply (f_equal out) in Hs.
           rewrite out_spoken, Hout in Hs. apply (f_equal length) in Hs.
           unfold drivers.said in Hs. rewrite !length_app in Hs. cbn [length] in Hs. lia. }
       rewrite say_true_spec, say_stage_spec.
       split; [by destruct (memory.append_conversation _ _ _)|].
       intros (_ & E & _). by destruct (memory.append_conversation _ _ _). }
  destruct (memory_bridge.memory_answer (mem s) user) as [ans|e] eqn:Hans.
  2: { right; left. exists e. split; [done|].
       split; [eapply memory_answer_unreadable; exact Hans|].
       by intros (_ & _ & ans & E & _). }
  destruct (memory_bridge.is_truthy ans) as [a|] eqn:Ha.
  - left. exists runtime.FastPath, a, s. split; [by right; right|]. split; [done|].
    split; [destruct (memory._read (mem s)) as [d|e]; [|done]; by exists d|].
    split; [done|].
    intros (_ & _ & ans' & [= <-] & E). congruence.
  - right; right. split; [done|]. split; [done|]. split; [done|]. by exists ans.
Qed.

(** the legacy block, which adds no reply and no turn, and the LLM after
    it *)
Lemma tail_run user s (r : res runtime.stage) s' :
  match runtime.try_legacy user s with
  | (Ok true, s4) => (Ok runtime.Legacy, s4)
  | (Ok false, s4) =>
      match llm_path.llm_respond user s4 with
      | (Ok _, s5) => (Ok runtime.Llm, s5)
      | (Raise e, s5) => (Raise e, s5)
      end
  | (Raise e, s4) => (Raise e, s4)
  end = (r, s') ->
  exists tr,
    out s' = out s ++ tr /\
    match r with
    | Ok stg =>
        stg = runtime.Llm /\
        exists reply d',
          drivers.speaks tr = [reply] /\
          drivers.appended tr = [drivers.bot reply] /\
          memory._read (mem s') = Ok d' /\
          last (memory.conversations_of d') = Some (memory.Turn None (Some reply))
    | Raise _ => drivers.speaks tr = [] /\ drivers.appended tr = []
    end.
Proof.
  unfold runtime.try_legacy, bind, emit, try_except, runtime.legacy_dispatch, ret.
  assert (Hllm : forall tr0 s4,
    out s4 = out s ++ tr0 -> drivers.speaks tr0 = [] -> drivers.appended tr0 = [] ->
    match llm_path.llm_respond user s4 with
    | (Ok _, s5) => (Ok runtime.Llm, s5)
    | (Raise e, s5) => (Raise e, s5)
    end = (r, s') ->
    exists tr,
      out s' = out s ++ tr /\
      match r with
      | Ok stg =>
          stg = runtime.Llm /\
          exists reply d',
            drivers.speaks tr = [reply] /\
            drivers.appended tr = [drivers.bot reply] /\
            memory._read (mem s') = Ok d' /\
            last (memory.conversations_of d') = Some (memory.Turn None (Some reply))
      | Raise _ => drivers.speaks tr = [] /\ drivers.appended tr = []
      end).
  { intros tr0 s4 Hout Hsp Hap E.
    destruct (llm_path.llm_respond user s4) as [r5 s5] eqn:Hrun.
    destruct (llm_respond_run s4 user r5 s5 Hrun) as (tr & Hout5 & H).
    exists (tr0 ++ tr). split.
    { destruct r5; injection E as _ <-; by rewrite Hout5, Hout, app_assoc. }
    rewrite speaks_app, appended_app, Hsp, Hap.
    destruct r5 as [[]|e]; injection E as <- <-.
    - destruct H as (reply & d & Hs & Ha & _ & _ & Hmem). split; [done|].
      destruct (logged_last (memory.facts d) (memory.conversations_of d)
                  (memory.Turn None (Some reply))) as (d' & Hr' & _ & Hlast).
      exists reply, d'. rewrite Hmem. done.
    - destruct H as (Hs & Ha & _). done. }
  destruct (router.route user) as [legacy|]; cbv beta iota.
  - match goal with
    | |- context [Print ?t] => apply (Hllm [LegacyRoute user; Print t]); [|done|done]
    end.
    cbn [out with_out]. by rewrite <- app_assoc.
  - by apply (Hllm [LegacyRoute user]).
Qed.

(** the plugin block as a run: it never raises, every reply handed to the
    voice output is followed by its [append_conversation] call, and when
    it reports the utterance served the reply is the last turn of the
    log *)
Lemma try_plugin_run user s (r : res bool) s' :
  runtime.try_plugin user s = (r, s') ->
  exists tr,
    out s' = out s ++ tr /\
    drivers.appended tr = map drivers.bot (drivers.speaks tr) /\
    match r with
    | Ok true =>
        exists reply d',
          drivers.speaks tr = [reply] /\
          memory._read (mem s') = Ok d' /\
          last (memory.conversations_of d') = Some (memory.Turn None (Some reply))
    | Ok false => True
    | Raise _ => False
    end.
Proof.
  rewrite try_plugin_spec. cbv zeta.
  destruct (plugins.route (router s) user) as [sk|].
  2: { intros [= <- <-]. exists [Route user]. done. }
  destruct (plugins.run sk user (mem s) (ext s)) as [[[result|e] f3] e3].
  2: { intros [= <- <-]. eexists [Route user; SkillRun _; Print _]. split; [|done].
       cbn [out with_out with_ext with_mem]. by rewrite <- !app_assoc. }
  destruct (memory.append_conversation None (Some result) f3) as [f4|e] eqn:Hap.
  - intros [= <- <-].
    eexists (Route user :: SkillRun _ :: drivers.said _ result). split.
    { unfold drivers.spoken. cbn [out with_out with_ext with_mem].
      rewrite <- !app_assoc. reflexivity. }
    rewrite !appended_cons, !speaks_cons, appended_said, speaks_said.
    split; [done|].
    apply append_turn_inv in Hap as (d3 & _ & ->); [|right; eexists; reflexivity].
    destruct (logged_last (memory.facts d3) (memory.conversations_of d3)
                (memory.Turn None (Some result))) as (d' & Hr' & _ & Hlast).
    by exists result, d'.
  - intros [= <- <-].
    eexists (Route user :: SkillRun _ :: drivers.said _ result ++ [Print _]). split.
    { unfold drivers.spoken. cbn [out with_out with_ext with_mem].
      rewrite <- !app_assoc. reflexivity. }
    rewrite !appended_cons, !speaks_cons, appended_app, speaks_app,
      appended_said, speaks_said.
    done.
Qed.

(** the stages as a run: the user turn is the first call on the log, each
    reply spoken is followed by its call, and a run that returns ends at
    the skill or at the LLM with the reply as the last turn of the log *)
Lemma dispatch_run user s (r : res runtime.stage) s' :
  runtime.dispatch user s = (r, s') ->
  drivers.appended (drivers.new_events s s') =
    (Some user, None) :: map drivers.bot (drivers.speaks (drivers.new_events s s')) /\
  match r with
  | Ok stg =>
      (stg = runtime.Plugin \/ stg = runtime.Llm) /\
      exists replies reply d',
        drivers.speaks (drivers.new_events s s') = replies ++ [reply] /\
        memory._read (mem s') = Ok d' /\
        last (memory.conversations_of d') = Some (memory.Turn None (Some reply))
  | Raise _ => True
  end.
Proof.
  rewrite dispatch_unfold.
  destruct (memory.append_conversation (Some user) None (mem s)) as [f2|e].
  2: { intros [= <- <-]. by erewrite new_events_app by reflexivity. }
  set (s2 := with_mem f2 _).
  destruct (runtime.try_plugin user s2) as [rp s3] eqn:Hplug.
  destruct (try_plugin_run user s2 rp s3 Hplug) as (tr1 & Hout1 & Hap1 & H1).
  assert (Hout3 : out s3 = out s ++ Append (Some user) None :: tr1).
  { rewrite Hout1. subst s2. cbn [out with_mem with_out]. by rewrite <- app_assoc. }
  destruct rp as [[]|e]; [| |done].
  - intros [= <- <-]. erewrite new_events_app by exact Hout3.
    rewrite appended_cons, speaks_cons, Hap1. split; [done|].
    split; [by left|].
    destruct H1 as (reply & d' & Hs & Hr' & Hlast). exists [], reply, d'.
    by rewrite Hs.
  - intros E. destruct (tail_run user s3 r s' E) as (tr2 & Hout2 & H2).
    erewrite new_events_app
      by (rewrite Hout2, Hout3, <- app_assoc; reflexivity).
    rewrite <- app_comm_cons.
    rewrite appended_cons, speaks_cons. cbn [app].
    rewrite appended_app, speaks_app, Hap1, map_app.
    destruct r as [stg|e].
    + destruct H2 as (-> & reply & d' & Hs & Ha & Hr' & Hlast).
      rewrite Hs, Ha. split; [done|]. split; [by right|].
      by exists (drivers.speaks tr1), reply, d'.
    + destruct H2 as [-> ->]. done.
Qed.

End dispatch.

(** ** Claims on keys, on the fast path and on the order of the stages *)

(** C3, as the claim states it, fails: [remember] stores under the key it
    is given; nothing is stored under the normalized key. *)
Lemma C3_counterexample :
  exists f',
    memory.remember "Favorite-Color" "navy" (memory.Stored memory.empty_document) = Ok f' /\
    admin.normalize_key "Favorite-Color" = "favorite_color" /\
    memory.recall "favorite_color" f' = Ok None /\
    memory.recall "Favorite-Color" f' = Ok (Some "navy").
Proof. eexists. repeat split. Qed.

(** refutes that a call on the legacy router is among events that are
    listed one by one or are those of [say] *)
Ltac no_legacy H :=
  repeat first
    [ discriminate H
    | (apply said_quiet in H; discriminate H)
    | (apply elem_of_nil in H; contradiction)
    | apply elem_of_cons in H as [H|H]
    | apply elem_of_app in H as [H|H] ].

Lemma new_events_refl {Ext} (s : context.state Ext) : drivers.new_events s s = [].
Proof. apply new_events_app. by rewrite app_nil_r. Qed.

Section claims.
Context {Ext : Type}.
Implicit Types (s : context.state Ext).

Import context.

(** C3, amended.  On a readable store [remember(k, v)] returns, having
    upserted [v] under the key [k] exactly as given and persisted the
    document: [recall(k)] gives [v] and every other key, the normalized
    form of [k] included, reads as before.  The normalization (strip,
    lower case, spaces and hyphens to underscores) is done by the
    memory-admin handler: on [memory set <key> = <value>] it calls
    [remember] with the normalized key, so the fact is found under that
    key afterwards. *)
Theorem C3_remember_key_as_given s (k v low : string) (m : re.rmatch_obj)
    (d : memory.document) :
  memory._read (mem s) = Ok d ->
  re.fullmatch true admin.MEM_LIST_RE low = None ->
  re.fullmatch true admin.MEM_GET_RE low = None ->
  re.fullmatch true admin.MEM_SET_RE low = Some m ->
  (exists f',
     memory.remember k v (mem s) = Ok f' /\
     memory._read f' =
       Ok (memory.Doc (Some (pydict.set k v (memory.facts_of d))) (memory.conversations d)) /\
     memory.recall k f' = Ok (Some v) /\
     forall k', k' <> k -> memory.recall k' f' = memory.recall k' (mem s)) /\
  (exists s' d',
     admin.handle_memory_admin low s = (Ok true, s') /\
     memory._read (mem s') = Ok d' /\
     memory.facts_of d' =
       pydict.set (admin.normalize_key (re.group 1 m)) (text.strip (re.group 2 m))
         (memory.facts_of d) /\
     memory.recall (admin.normalize_key (re.group 1 m)) (mem s') =
       Ok (Some (text.strip (re.group 2 m)))).
Proof.
  intros Hr Hlist Hget Hset. split.
  - eexists. split; [by apply remember_spec|]. split; [reflexivity|].
    unfold memory.recall. rewrite Hr.
    cbn [memory._read memory._safe_write].
    change (memory.facts_of (memory.Doc (Some ?x) ?c)) with x.
    split; [by rewrite pydict_get_set_eq|].
    intros k' Hk. by rewrite pydict_get_set_ne.
  - unfold admin.handle_memory_admin. rewrite Hlist, Hget, Hset.
    rewrite bind_mem_write, (remember_spec _ _ _ d Hr), say_true_spec.
    set (key := admin.normalize_key (re.group 1 m)).
    set (val := text.strip (re.group 2 m)).
    set (d1 := memory.Doc (Some (pydict.set key val (memory.facts_of d)))
                 (memory.conversations d)).
    change (mem (with_mem (memory.Stored d1) s)) with (memory.Stored d1).
    rewrite (append_turn_spec None _ (memory.Stored d1) d1 eq_refl)
      by (right; eexists; reflexivity).
    eexists _, _. split; [reflexivity|]. split; [reflexivity|].
    split; [reflexivity|].
    unfold memory.recall. cbn [mem with_mem memory._read memory.facts_of memory.facts
                                from_option id].
    subst d1. cbn [memory.facts from_option id]. by rewrite pydict_get_set_eq.
Qed.

(** C7. With [user_name = Ben] in the store, and a wake word the utterance
    does not start with, handling ["what's my name?"] ends in the memory
    fast path: both admin handlers decline, the reply is
    ["Your name is Ben."], the events are those of saying it (printed,
    handed to the voice output, logged as one bot turn), and none of them
    is a call on the primary router, the legacy router, a skill or the
    LLM. *)
Theorem C7_name_fast_path s (d : memory.document) :
  memory._read (mem s) = Ok d ->
  pydict.get "user_name" (memory.facts_of d) = Some "Ben" ->
  text.startswith (text.lower (wake s)) "what's my name?" = false ->
  exists s',
    runtime.process_command "what's my name?" s = (Ok runtime.FastPath, s') /\
    admin.handle_skill_admin "what's my name?" s = (Ok false, s) /\
    admin.handle_memory_admin "what's my name?" s = (Ok false, s) /\
    memory_bridge.memory_answer (mem s) "what's my name?" = Ok (Some "Your name is Ben.") /\
    drivers.new_events s s' = drivers.said s "Your name is Ben." /\
    existsb drivers.is_dispatch (drivers.new_events s s') = false /\
    drivers.appended (drivers.new_events s s') = [(None, Some "Your name is Ben.")].
Proof.
  intros Hr Hname Hwake.
  assert (Huser : runtime.command_text (wake s) "what's my name?" = "what's my name?").
  { unfold runtime.command_text.
    change (text.lower "what's my name?") with "what's my name?". by rewrite Hwake. }
  assert (Hsa : admin.handle_skill_admin "what's my name?" s = (Ok false, s)).
  { unfold admin.handle_skill_admin.
    assert (re.fullmatch true admin.ADMIN_RELOAD_RE "what's my name?" = None) as ->
      by (vm_compute; reflexivity).
    assert (re.fullmatch true admin.LIST_SKILLS_RE "what's my name?" = None) as ->
      by (vm_compute; reflexivity).
    assert (re.search true admin.SKILL_CMD_RE "what's my name?" = None) as ->
      by (vm_compute; reflexivity).
    reflexivity. }
  assert (Hma : admin.handle_memory_admin "what's my name?" s = (Ok false, s)).
  { unfold admin.handle_memory_admin.
    assert (re.fullmatch true admin.MEM_LIST_RE "what's my name?" = None) as ->
      by (vm_compute; reflexivity).
    assert (re.fullmatch true admin.MEM_GET_RE "what's my name?" = None) as ->
      by (vm_compute; reflexivity).
    assert (re.fullmatch true admin.MEM_SET_RE "what's my name?" = None) as ->
      by (vm_compute; reflexivity).
    reflexivity. }
  assert (Hans : memory_bridge.memory_answer (mem s) "what's my name?"
                 = Ok (Some "Your name is Ben.")).
  { unfold memory_bridge.memory_answer.
    change (text.strip (text.lower "what's my name?")) with "what's my name?".
    unfold memory_bridge.QMAP. cbn [memory_bridge.answer_qmap].
    assert (exists m0,
      re.search false (re.cat (memory_bridge.what_is_my ++ [re.lit "name"; re.WordB]))
        "what's my name?" = Some m0) as [m0 ->]
      by (eexists; vm_compute; reflexivity).
    unfold memory.recall. rewrite Hr, Hname. reflexivity. }
  pose proof (append_turn_spec None (Some "Your name is Ben.") (mem s) d Hr
                (or_intror (mk_is_Some _ _ eq_refl))) as Hap.
  eexists. split.
  { rewrite process_command_unfold. cbv zeta. rewrite Huser.
    change (text.strip (text.lower "what's my name?")) with "what's my name?".
    rewrite Hsa, Hma, Hans. cbn [memory_bridge.is_truthy text.truthy].
    rewrite say_stage_spec, Hap. reflexivity. }
  split; [exact Hsa|]. split; [exact Hma|]. split; [exact Hans|].
  assert (Hev : drivers.new_events s
                  (with_mem
                     (memory.Stored
                        (memory.Doc (memory.facts d)
                           (Some (memory.last_n memory.MAX_CONVERSATIONS
                                    (memory.conversations_of d ++
                                     [memory.Turn None (Some "Your name is Ben.")])))))
                     (drivers.spoken "Your name is Ben." s))
                = drivers.said s "Your name is Ben.")
    by (by apply new_events_app).
  rewrite Hev. split; [reflexivity|]. split; [|apply appended_said].
  unfold drivers.said, drivers.tts_log.
  by destruct (fst _).
Qed.

(** C2, amended.  The legacy router is consulted only after the primary
    router: whenever handling an utterance calls the legacy router, either
    the primary router found no skill for it, or the skill it found did
    not serve it: its [run] raised, or the reply could not be logged
    (both are caught by the same [except], which falls back to the legacy
    router). *)
Theorem C2_legacy_after_primary s (raw : string) (r : res runtime.stage) s' :
  runtime.process_command raw s = (r, s') ->
  (exists u, LegacyRoute u ∈ drivers.new_events s s') ->
  let user := runtime.command_text (wake s) raw in
  plugins.route (router s) user = None \/
  exists sk f2,
    plugins.route (router s) user = Some sk /\
    memory.append_conversation (Some user) None (mem s) = Ok f2 /\
    match plugins.run sk user f2 (ext s) with
    | (Raise _, _, _) => True
    | (Ok result, f3, _) =>
        is_ok (memory.append_conversation None (Some result) f3) = false
    end.
Proof.
  intros Hrun [u Hu] user.
  destruct (front_cases raw s)
    as [(stg & txt & s1 & _ & Hout & _ & E)|[(e & E & _)|E]].
  - exfalso. rewrite say_stage_spec in E. rewrite E in Hrun.
    destruct (memory.append_conversation None (Some txt) (mem s1));
      injection Hrun as _ <-;
      (erewrite new_events_app in Hu by (cbn [out with_mem drivers.spoken with_out];
                                         rewrite Hout; reflexivity));
      no_legacy Hu.
  - exfalso. rewrite E in Hrun. injection Hrun as _ <-.
    rewrite new_events_refl in Hu. no_legacy Hu.
  - fold user in E. rewrite dispatch_unfold in E.
    destruct (memory.append_conversation (Some user) None (mem s)) as [f2|e] eqn:Hap.
    2: { exfalso. rewrite E in Hrun. injection Hrun as _ <-.
         erewrite new_events_app in Hu by reflexivity. no_legacy Hu. }
    rewrite try_plugin_spec in E. cbv zeta in E.
    change (router (with_mem f2 _)) with (router s) in E.
    change (mem (with_mem f2 _)) with f2 in E.
    change (ext (with_mem f2 _)) with (ext s) in E.
    destruct (plugins.route (router s) user) as [sk|]; [|by left].
    right. exists sk, f2. split; [done|]. split; [done|].
    destruct (plugins.run sk user f2 (ext s)) as [[[result|e] f3] e3]; [|done].
    destruct (memory.append_conversation None (Some result) f3) as [f4|e]; [|done].
    exfalso. rewrite E in Hrun. injection Hrun as _ <-.
    erewrite new_events_app in Hu
      by (unfold drivers.spoken; cbn [out with_mem with_out with_ext];
          rewrite <- !app_assoc; reflexivity).
    no_legacy Hu.
Qed.

(** C10, amended.  In every run of the command part, whatever the store,
    the skills and the collaborators do: the [append_conversation] calls
    are the bot turns of the replies handed to the voice output, one call
    per reply and in their order, preceded by one user turn exactly when
    both handlers declined and the memory fast path had no answer, and by
    none otherwise.  A run that ends at a handler or at the fast path has
    said one reply, read the store before and after, and left the old log
    followed by the bot turn of that reply (cut to the cap), with no user
    turn.  A run that ends at a skill or at the LLM was declined by the
    handlers and the fast path, and the reply said last is the last turn
    of the log.  A run that raises either found the store unreadable or
    was left to the stages; then a reply may have been said whose call on
    the log failed. *)
Theorem C10_user_turn_logging s (raw : string) (r : res runtime.stage) s' :
  runtime.process_command raw s = (r, s') ->
  let user := runtime.command_text (wake s) raw in
  let low := text.strip (text.lower user) in
  let tr := drivers.new_events s s' in
  let declined :=
    admin.handle_skill_admin low s = (Ok false, s) /\
    admin.handle_memory_admin low s = (Ok false, s) /\
    exists ans, memory_bridge.memory_answer (mem s) user = Ok ans /\
                memory_bridge.is_truthy ans = None in
  (declined /\
   drivers.appended tr = (Some user, None) :: map drivers.bot (drivers.speaks tr) \/
   ~ declined /\
   drivers.appended tr = map drivers.bot (drivers.speaks tr)) /\
  match r with
  | Ok runtime.SkillAdmin | Ok runtime.MemoryAdmin | Ok runtime.FastPath =>
      exists reply d d',
        drivers.speaks tr = [reply] /\
        drivers.appended tr = [drivers.bot reply] /\
        memory._read (mem s) = Ok d /\
        memory._read (mem s') = Ok d' /\
        memory.conversations_of d' =
          memory.last_n memory.MAX_CONVERSATIONS
            (memory.conversations_of d ++ [memory.Turn None (Some reply)])
  | Ok _ =>
      declined /\
      exists replies reply d',
        drivers.speaks tr = replies ++ [reply] /\
        memory._read (mem s') = Ok d' /\
        last (memory.conversations_of d') = Some (memory.Turn None (Some reply))
  | Raise _ => memory.readable (mem s) = false \/ declined
  end.
Proof.
  intros Hrun user low tr. cbv zeta.
  destruct (front_run raw s)
    as [(stg & txt & s1 & Hstg & Hout & Hmem & E & Hno)
       |[(e & E & Hunread & Hno)|(E & Hdecl)]].
  - rewrite E in Hrun.
    destruct (say_stage_run stg txt s s1 r s' Hout Hrun) as [Htr Hend].
    fold tr in Htr. rewrite Htr, appended_said, speaks_said.
    split; [by right|].
    destruct (memory._read (mem s)) as [d|e] eqn:Hr.
    + destruct Hmem as (d1 & Hr1 & Hc1). rewrite Hr1 in Hend.
      destruct Hend as [-> Hmem'].
      assert (Hlog : exists reply d0 d',
                [txt] = [reply] /\
                [drivers.bot txt] = [drivers.bot reply] /\
                Ok d = Ok d0 /\
                memory._read (mem s') = Ok d' /\
                memory.conversations_of d' =
                  memory.last_n memory.MAX_CONVERSATIONS
                    (memory.conversations_of d0 ++ [memory.Turn None (Some reply)])).
      { destruct (logged_last (memory.facts d1) (memory.conversations_of d1)
                    (memory.Turn None (Some txt))) as (d' & Hr' & Hc' & _).
        exists txt, d, d'. rewrite Hmem', Hr', Hc', Hc1. done. }
      by destruct Hstg as [->|[->| ->]].
    + rewrite Hmem in Hend. destruct Hend as [-> _].
      left. unfold memory.readable. by rewrite Hr.
  - rewrite E in Hrun. injection Hrun as <- <-.
    subst tr. rewrite new_events_refl. split; [by right|]. by left.
  - fold user in E. rewrite E in Hrun.
    destruct (dispatch_run user s r s' Hrun) as [Hap Hend]. fold tr in Hap, Hend.
    split; [by left|].
    destruct r as [stg|e]; [|by right].
    destruct Hend as [Hstg Hend]. by destruct Hstg as [-> | ->].
Qed.

End claims.

(** C10, as the claim states it, fails: the reply of a stage is not always
    logged.  On a memory file that has become malformed, [list skills] is
    answered by the skill-admin handler: the reply is printed and handed
    to the voice output, the call that should log it raises, and nothing
    is logged.  And a skill that ruins the memory file and returns its
    reply: the reply is printed and handed to the voice output, the call
    that should log it fails, and the run ends with the error of the LLM
    stage, which cannot read the store. *)
Lemma C10_counterexample :
  (let st := context.with_mem memory.Malformed
               (demo.booted demo.tts_fine demo.ben demo.dir_hello) in
   exists reply s',
     runtime.process_command "list skills" st = (Raise JSONDecodeError, s') /\
     context.Print ("Orion: " +:+ reply) ∈ drivers.new_events st s' /\
     drivers.speaks (drivers.new_events st s') = [reply] /\
     drivers.appended (drivers.new_events st s') = [drivers.bot reply] /\
     context.mem s' = memory.Malformed) /\
  (let st := demo.booted demo.tts_fine demo.ben demo.dir_wrecker in
   exists s',
     runtime.process_command "wreck it" st = (Raise JSONDecodeError, s') /\
     context.Print "Orion: done" ∈ drivers.new_events st s' /\
     drivers.speaks (drivers.new_events st s') = ["done"] /\
     drivers.appended (drivers.new_events st s') =
       [(Some "wreck it", None); drivers.bot "done"] /\
     context.mem s' = memory.Malformed).
Proof.
  split.
  - eexists _, _. split; [vm_compute; reflexivity|].
    split; [vm_compute; apply list_elem_of_here|].
    split; [|split]; vm_compute; reflexivity.
  - eexists. split; [vm_compute; reflexivity|].
    split; [vm_compute; find_event|].
    split; [|split]; vm_compute; reflexivity.
Qed.



(** C7 on the store that holds [user_name = Ben], with the wake word
    [orion] *)
Lemma C7_name_fast_path_witness :
  let st := demo.booted demo.tts_fine demo.ben demo.dir_hello in
  exists s',
    runtime.process_command "what's my name?" st = (Ok runtime.FastPath, s') /\
    admin.handle_skill_admin "what's my name?" st = (Ok false, st) /\
    admin.handle_memory_admin "what's my name?" st = (Ok false, st) /\
    memory_bridge.memory_answer (context.mem st) "what's my name?"
      = Ok (Some "Your name is Ben.") /\
    drivers.new_events st s' = drivers.said st "Your name is Ben." /\
    existsb drivers.is_dispatch (drivers.new_events st s') = false /\
    drivers.appended (drivers.new_events st s') = [(None, Some "Your name is Ben.")].
Proof.
  intros st.
  apply (C7_name_fast_path st (memory.Doc (Some [("user_name", "Ben")]) (Some [])));
    reflexivity.
Defined.

(** C2, as the claim states it, fails: the primary router returns the
    skill [broken] for ["weather please"], the skill raises, and the
    legacy router is consulted for the same utterance. *)
Lemma C2_counterexample :
  let st := demo.booted demo.tts_fine memory.Missing demo.dir_broken in
  exists sk s',
    plugins.route (context.router st) "weather please" = Some sk /\
    plugins.name sk = "broken" /\
    runtime.process_command "weather please" st = (Ok runtime.Llm, s') /\
    context.LegacyRoute "weather please" ∈ drivers.new_events st s'.
Proof.
  intros st. eexists _, _.
  split; [vm_compute; reflexivity|]. split; [reflexivity|].
  split; [vm_compute; reflexivity|].
  vm_compute. find_event.
Qed.

(** C2 on the same utterance: the legacy router is consulted, and the
    skill found by the primary router raised *)
Lemma C2_legacy_after_primary_witness :
  let st := demo.booted demo.tts_fine memory.Missing demo.dir_broken in
  let user := runtime.command_text (context.wake st) "weather please" in
  plugins.route (context.router st) user = None \/
  exists sk f2,
    plugins.route (context.router st) user = Some sk /\
    memory.append_conversation (Some user) None (context.mem st) = Ok f2 /\
    match plugins.run sk user f2 (context.ext st) with
    | (Raise _, _, _) => True
    | (Ok result, f3, _) =>
        is_ok (memory.append_conversation None (Some result) f3) = false
    end.
Proof.
  intros st.
  eapply (C2_legacy_after_primary st "weather please").
  - vm_compute. reflexivity.
  - eexists. vm_compute. find_event.
Defined.

(** C10 on an utterance served by the skill [hello], over a fresh store
    and with a voice output that raises *)
Lemma C10_user_turn_logging_witness :
  let st := demo.booted demo.tts_broken memory.Missing demo.dir_hello in
  let user := runtime.command_text (context.wake st) "hello there" in
  exists s',
    runtime.process_command "hello there" st = (Ok runtime.Plugin, s') /\
    drivers.appended (drivers.new_events st s') =
      (Some user, None) :: map drivers.bot (drivers.speaks (drivers.new_events st s')) /\
    exists replies reply d',
      drivers.speaks (drivers.new_events st s') = replies ++ [reply] /\
      memory._read (context.mem s') = Ok d' /\
      last (memory.conversations_of d') = Some (memory.Turn None (Some reply)).
Proof.
  intros st user.
  assert (H : exists s', runtime.process_command "hello there" st = (Ok runtime.Plugin, s'))
    by (eexists; vm_compute; reflexivity).
  destruct H as [s' H]. exists s'. split; [exact H|].
  destruct (C10_user_turn_logging st "hello there" _ s' H)
    as [[[_ Hap]|[Hno _]] [Hdecl Hend]].
  - split; [exact Hap|exact Hend].
  - destruct (Hno Hdecl).
Defined.

(** C3 on [memory set Favorite-Color = navy] (lowered by the caller) and
    on [remember("Favorite-Color", "navy")], over a fresh store *)
Lemma C3_remember_key_as_given_witness :
  let st := demo.booted demo.tts_fine memory.Missing demo.dir_hello in
  let low := "memory set favorite-color = navy" in
  exists m,
    re.fullmatch true admin.MEM_SET_RE low = Some m /\
    admin.normalize_key (re.group 1 m) = "favorite_color" /\
    (exists f',
       memory.remember "Favorite-Color" "navy" (context.mem st) = Ok f' /\
       memory._read f' =
         Ok (memory.Doc
               (Some (pydict.set "Favorite-Color" "navy"
                        (memory.facts_of memory.empty_document)))
               (memory.conversations memory.empty_document)) /\
       memory.recall "Favorite-Color" f' = Ok (Some "navy") /\
       forall k', k' <> "Favorite-Color" ->
         memory.recall k' f' = memory.recall k' (context.mem st)) /\
    (exists s' d',
       admin.handle_memory_admin low st = (Ok true, s') /\
       memory._read (context.mem s') = Ok d' /\
       memory.facts_of d' =
         pydict.set (admin.normalize_key (re.group 1 m)) (text.strip (re.group 2 m))
           (memory.facts_of memory.empty_document) /\
       memory.recall (admin.normalize_key (re.group 1 m)) (context.mem s') =
         Ok (Some (text.strip (re.group 2 m)))).
Proof.
  intros st low. eexists. split; [vm_compute; reflexivity|].
  split; [vm_compute; reflexivity|].
  apply (C3_remember_key_as_given st "Favorite-Color" "navy" low _ memory.empty_document).
  - reflexivity.
  - vm_compute; reflexivity.
  - vm_compute; reflexivity.
  - vm_compute; reflexivity.
Defined.

(** * Further properties of the code *)

(** ** The fact store: what a write leaves alone *)

Lemma list_filter_sublist {A} (p : A -> bool) (l : list A) :
  List.filter p l `sublist_of` l.
Proof.
  induction l as [|x l IH]; simpl; [constructor|].
  destruct (p x); by constructor.
Qed.

Lemma contains_empty (s : string) : text.contains "" s = true.
Proof. by destruct s. Qed.

Lemma list_filter_all {A} (p : A -> bool) (l : list A) :
  (forall x, p x = true) -> List.filter p l = l.
Proof.
  intros H. induction l as [|x l IH]; simpl; [done|]. by rewrite H, IH.
Qed.

(** X1. On a readable store [remember(k, v)] returns; afterwards [recall]
    gives [v] for [k] and what it gave before for every other key, the
    keys that were there keep their order, and the conversation log is
    the one there was. *)
Theorem X1_remember_frame (k v : string) f d :
  memory._read f = Ok d ->
  exists f' d',
    memory.remember k v f = Ok f' /\
    memory._read f' = Ok d' /\
    memory.recall k f' = Ok (Some v) /\
    (forall k', k' <> k -> memory.recall k' f' = memory.recall k' f) /\
    pydict.keys (memory.facts_of d) `sublist_of` pydict.keys (memory.facts_of d') /\
    memory.conversations d' = memory.conversations d.
Proof.
  intros Hr. eexists _, _. split; [by apply remember_spec|].
  split; [reflexivity|]. unfold memory.recall. rewrite Hr. cbn.
  split; [by rewrite pydict_get_set_eq|].
  split; [intros k' Hk; by rewrite pydict_get_set_ne|].
  split; [|done].
  generalize (memory.facts_of d). intros l. unfold pydict.keys.
  induction l as [|[k0 v0] l IH]; simpl; [apply sublist_nil_l|].
  destruct (String.eqb k0 k) eqn:E; simpl.
  - apply String.eqb_eq in E as ->. done.
  - by constructor.
Qed.

Lemma X1_remember_frame_witness :
  exists f',
    memory.remember "role" "developer" demo.ben = Ok f' /\
    memory.recall "user_name" f' = Ok (Some "Ben").
Proof.
  destruct (X1_remember_frame "role" "developer" demo.ben
              (memory.Doc (Some [("user_name", "Ben")]) (Some [])) eq_refl)
    as (f' & d' & H1 & _ & _ & H2 & _).
  exists f'. split; [exact H1|]. rewrite H2; [reflexivity|discriminate].
Defined.

(** X2. On a readable store [append_conversation] returns and leaves the
    facts alone: [recall] and [facts_like] give afterwards what they gave
    before, whatever the turn and whether or not the log was trimmed. *)
Theorem X2_append_keeps_facts (u b : option string) f d :
  memory._read f = Ok d ->
  exists f',
    memory.append_conversation u b f = Ok f' /\
    (forall k, memory.recall k f' = memory.recall k f) /\
    (forall needle, memory.facts_like needle f' = memory.facts_like needle f).
Proof.
  intros Hr.
  destruct (decide (is_Some u \/ is_Some b)) as [Hub|Hub].
  - eexists. split; [by apply append_turn_spec|].
    unfold memory.recall, memory.facts_like. rewrite Hr. by cbn.
  - exists f. split; [|done]. unfold memory.append_conversation. rewrite Hr.
    destruct u, b; try done; exfalso; apply Hub; eauto.
Qed.

Lemma X2_append_keeps_facts_witness :
  exists f',
    memory.append_conversation (Some "hi") None demo.ben = Ok f' /\
    memory.recall "user_name" f' = Ok (Some "Ben").
Proof.
  destruct (X2_append_keeps_facts (Some "hi") None demo.ben
              (memory.Doc (Some [("user_name", "Ben")]) (Some [])) eq_refl)
    as (f' & H1 & H2 & _).
  exists f'. split; [exact H1|]. rewrite H2. reflexivity.
Defined.

(** X3. On a readable store [facts_like(needle)] gives, in the order of
    the store, exactly the facts whose key or value holds the needle when
    both are lowered; with the empty needle it gives every fact. *)
Theorem X3_facts_like (needle : string) f d :
  memory._read f = Ok d ->
  memory.facts_like "" f = Ok (memory.facts_of d) /\
  exists l,
    memory.facts_like needle f = Ok l /\
    l `sublist_of` memory.facts_of d /\
    forall k v,
      (k, v) ∈ l <->
      (k, v) ∈ memory.facts_of d /\
      (text.contains (text.lower needle) (text.lower k) = true \/
       text.contains (text.lower needle) (text.lower v) = true).
Proof.
  intros Hr. unfold memory.facts_like. rewrite Hr. split.
  - f_equal. apply list_filter_all. intros [k v]. cbn. by rewrite contains_empty.
  - eexists. split; [reflexivity|]. split; [apply list_filter_sublist|].
    intros k v. rewrite list_elem_of_In, filter_In, <- list_elem_of_In. cbn.
    by rewrite orb_true_iff.
Qed.

Lemma X3_facts_like_witness :
  memory.facts_like "BEN" demo.ben = Ok [("user_name", "Ben")].
Proof.
  destruct (X3_facts_like "BEN" demo.ben
              (memory.Doc (Some [("user_name", "Ben")]) (Some [])) eq_refl)
    as (_ & l & H1 & _ & _).
  rewrite H1. vm_compute in H1. congruence.
Defined.

(** ** Skills: listing, loading and routing *)

Lemma pydict_get_keys {A} (k : string) (d : pydict.t A) :
  is_Some (pydict.get k d) <-> k ∈ pydict.keys d.
Proof.
  unfold pydict.keys. induction d as [|[k' v] d IH]; simpl.
  - split; [by intros [? ?]|by intros ?%elem_of_nil].
  - rewrite elem_of_cons. destruct (String.eqb k' k) eqn:E.
    + apply String.eqb_eq in E as ->. split; eauto.
    + apply String.eqb_neq in E. rewrite IH. split; [eauto|]. by intros [?|?].
Qed.


Lemma pydict_elem_get {A} (k : string) (v : A) (d : pydict.t A) :
  NoDup (pydict.keys d) -> (k, v) ∈ d -> pydict.get k d = Some v.
Proof.
  unfold pydict.keys. induction d as [|[k' v'] d IH]; simpl.
  - by intros _ ?%elem_of_nil.
  - intros [Hk Hnd]%NoDup_cons [[= -> ->]|Hin]%elem_of_cons.
    + by rewrite String.eqb_refl.
    + destruct (String.eqb k' k) eqn:E; [|by apply IH].
      apply String.eqb_eq in E as ->. exfalso. apply Hk.
      apply list_elem_of_fmap. by exists (k, v).
Qed.



Section listing.
Context {Ext : Type}.
Implicit Types (state : gmap string bool) (mods : list (string * plugins.pyfile Ext)).
Implicit Types (acc : pydict.t (plugins.LoadedSkill Ext)).




End listing.


Section routing.
Context {Ext : Type}.
Implicit Types (skills : pydict.t (plugins.LoadedSkill Ext)).

Lemma fires_or_not (pats : list re.regex) (s : string) :
  Forall (fun pat => re.search true pat s = None) pats \/
  Exists (fun pat => is_Some (re.search true pat s)) pats.
Proof.
  induction pats as [|pat pats [IH|IH]]; [left; constructor|..].
  - destruct (re.search true pat s) eqn:E.
    + right. apply Exists_cons_hd. rewrite E. eauto.
    + left. by constructor.
  - right. by apply Exists_cons_tl.
Qed.

Lemma route_rules_silent skills nm pats rules s :
  Forall (fun pat => re.search true pat s = None) pats ->
  plugins.route_rules skills (map (fun pat => (nm, pat)) pats ++ rules) s =
  plugins.route_rules skills rules s.
Proof.
  induction 1 as [|pat pats Hpat _ IH]; simpl; [done|]. by rewrite Hpat.
Qed.

Lemma route_rules_fires skills nm pats rules s :
  Exists (fun pat => is_Some (re.search true pat s)) pats ->
  plugins.route_rules skills (map (fun pat => (nm, pat)) pats ++ rules) s =
  pydict.get nm skills.
Proof.
  induction pats as [|pat pats IH]; [by intros ?%Exists_nil|].
  intros H. simpl. destruct (re.search true pat s) eqn:E; [done|].
  apply Exists_cons in H as [[? H]|H]; [by rewrite E in H|]. by apply IH.
Qed.

(** the rule list built from [l], looked up in [skills] *)
Lemma route_rules_flat skills (l : pydict.t (plugins.LoadedSkill Ext)) s :
  match plugins.route_rules skills
          (flat_map (fun e => map (fun pat => (fst e, pat)) (plugins.patterns (snd e))) l) s with
  | None =>
      (Forall (fun e => Forall (fun pat => re.search true pat s = None)
                               (plugins.patterns (snd e))) l \/
       exists l1 e l2, l = l1 ++ e :: l2 /\ pydict.get (fst e) skills = None)
  | Some sk =>
      exists l1 e l2,
        l = l1 ++ e :: l2 /\
        Forall (fun e => Forall (fun pat => re.search true pat s = None)
                                (plugins.patterns (snd e))) l1 /\
        Exists (fun pat => is_Some (re.search true pat s)) (plugins.patterns (snd e)) /\
        pydict.get (fst e) skills = Some sk
  end.
Proof.
  induction l as [|e l IH]; simpl; [left; constructor|].
  destruct (fires_or_not (plugins.patterns (snd e)) s) as [Hno|Hyes].
  - rewrite route_rules_silent by done.
    destruct (plugins.route_rules skills _ s) as [sk|].
    + destruct IH as (l1 & e' & l2 & -> & Hl1 & Hex & Hget).
      exists (e :: l1), e', l2. split; [done|]. split; [by constructor|done].
    + destruct IH as [IH|(l1 & e' & l2 & -> & Hget)]; [left; by constructor|].
      right. by exists (e :: l1), e', l2.
  - rewrite route_rules_fires by done.
    destruct (pydict.get (fst e) skills) as [sk|] eqn:Hget.
    + exists [], e, l. split; [done|]. split; [constructor|done].
    + right. by exists [], e, l.
Qed.

End routing.

(** X5. The router built from a table of skills with distinct names gives
    the first skill of the table, in table order, one of whose triggers is
    found in the text (letter case ignored), and gives nothing exactly when
    no trigger of any skill is found. *)
Theorem X5_plugin_route_first_match {Ext} (skills : pydict.t (plugins.LoadedSkill Ext))
    (s : string) :
  NoDup (pydict.keys skills) ->
  match plugins.route (plugins.new_router skills) s with
  | None =>
      forall k sk pat, (k, sk) ∈ skills -> pat ∈ plugins.patterns sk ->
                       re.search true pat s = None
  | Some sk =>
      exists l1 k l2 pat,
        skills = l1 ++ (k, sk) :: l2 /\
        (forall k' sk' pat', (k', sk') ∈ l1 -> pat' ∈ plugins.patterns sk' ->
                             re.search true pat' s = None) /\
        pat ∈ plugins.patterns sk /\ is_Some (re.search true pat s)
  end.
Proof.
  intros Hnd. unfold plugins.route, plugins.new_router. simpl.
  pose proof (route_rules_flat skills skills s) as H.
  destruct (plugins.route_rules skills _ s) as [sk|].
  - destruct H as (l1 & [k sk'] & l2 & Heq & Hl1 & Hex & Hget). simpl in *.
    assert (sk' = sk) as ->.
    { rewrite (pydict_elem_get k sk' skills) in Hget; [congruence|done|].
      rewrite Heq. apply elem_of_app. right. apply list_elem_of_here. }
    apply Exists_exists in Hex as (pat & Hpat & Hm).
    exists l1, k, l2, pat. split; [done|]. split; [|done].
    intros k' sk' pat' Hin Hpat'. rewrite Forall_forall in Hl1.
    specialize (Hl1 _ Hin). rewrite Forall_forall in Hl1. by apply Hl1.
  - destruct H as [H|(l1 & [k sk] & l2 & Heq & Hget)].
    + intros k sk pat Hin Hpat. rewrite Forall_forall in H.
      specialize (H _ Hin). rewrite Forall_forall in H. by apply H.
    + exfalso. simpl in Hget.
      rewrite (pydict_elem_get k sk skills) in Hget; [done..|].
      rewrite Heq. apply elem_of_app. right. apply list_elem_of_here.
Qed.

Lemma X5_plugin_route_first_match_witness :
  exists sk pat,
    plugins.route
      (plugins.new_router (plugins.load_skills plugins.NoState demo.dir_hello))
      "well hello there" = Some sk /\
    plugins.name sk = "hello" /\
    pat ∈ plugins.patterns sk /\ is_Some (re.search true pat "well hello there").
Proof.
  pose proof (X5_plugin_route_first_match
                (plugins.load_skills plugins.NoState demo.dir_hello)
                "well hello there") as H.
  destruct (plugins.route _ _) as [sk|] eqn:E.
  - destruct H as (l1 & k & l2 & pat & Heq & _ & Hpat & Hm).
    { vm_compute. repeat constructor. intros ?%elem_of_nil. done. }
    exists sk, pat. split; [reflexivity|]. split; [|exact (conj Hpat Hm)].
    vm_compute in E. injection E as <-. reflexivity.
  - vm_compute in E. discriminate.
Defined.

(** ** The scaffolded skill *)

Lemma chr_eq_backslash (x : ascii) : re.chr_eq true "\"%char x = Ascii.eqb "\"%char x.
Proof. by destruct x as [[] [] [] [] [] [] [] []]. Qed.

(** a pattern that starts with a literal backslash is found in no text
    without one *)
Lemma search_from_backslash (r : re.regex) (sn rs : list ascii) :
  Forall (fun c => c <> "\"%char) rs ->
  re.search_from true (re.Seq (re.Chr "\"%char) r) sn rs = None.
Proof.
  intros H. revert sn. induction H as [|x rs Hx _ IH]; intros sn; [reflexivity|].
  cbn [re.search_from re.rmatch re.rest]. rewrite chr_eq_backslash.
  destruct (Ascii.eqb_spec "\"%char x) as [E|_]; [by symmetry in E|]. apply IH.
Qed.

(** X6. The file that [scaffold] writes for a fresh, non-empty name loads
    as a skill of that name whose only trigger begins with a literal
    backslash (the template writes the raw string with doubled
    backslashes), so the trigger is found in no text that has no
    backslash character. *)
Theorem X6_scaffolded_trigger_needs_backslash {Ext} (nm : string)
    (dir : plugins.directory Ext) (s : string) :
  plugins.sanitize nm <> "" ->
  dir !! (plugins.sanitize nm +:+ ".py") = None ->
  Forall (fun c => c <> "\"%char) (list_ascii_of_string s) ->
  exists file sk,
    snd (plugins.scaffold nm dir) !! (plugins.sanitize nm +:+ ".py") = Some file /\
    plugins._load_one (plugins.sanitize nm, file) = Some sk /\
    plugins.name sk = plugins.sanitize nm /\
    length (plugins.patterns sk) = 1 /\
    Forall (fun pat => re.search true pat s = None) (plugins.patterns sk).
Proof.
  intros Hne Hfree Hs. unfold plugins.scaffold. rewrite Hfree. cbn [snd].
  rewrite lookup_insert_eq.
  destruct (String.eqb_spec (plugins.sanitize nm) "") as [?|_]; [done|].
  eexists _, _. split; [reflexivity|]. split; [reflexivity|].
  split; [reflexivity|]. split; [reflexivity|].
  cbn. constructor; [|constructor]. unfold re.search.
  by apply search_from_backslash.
Qed.

Lemma X6_scaffolded_trigger_needs_backslash_witness :
  exists file sk,
    snd (plugins.scaffold "Foo Bar!" (demo.dir_hello)) !! "foo_bar_.py" = Some file /\
    plugins._load_one ("foo_bar_", file) = Some sk /\
    plugins.name sk = "foo_bar_" /\
    Forall (fun pat => re.search true pat "run foo_bar_ now" = None) (plugins.patterns sk).
Proof.
  destruct (X6_scaffolded_trigger_needs_backslash (Ext := bool) "Foo Bar!" demo.dir_hello
              "run foo_bar_ now") as (file & sk & H1 & H2 & H3 & _ & H5).
  - vm_compute. discriminate.
  - vm_compute. reflexivity.
  - vm_compute. repeat constructor; discriminate.
  - exists file, sk. exact (conj H1 (conj H2 (conj H3 H5))).
Defined.

(** ** Facts handed to the LLM and answered from the store *)






Lemma answer_qmap_truthy f s qmap a :
  Forall (fun e : re.regex * string * (string -> string) =>
            forall v, text.truthy (snd e v) = true) qmap ->
  memory_bridge.answer_qmap f s qmap = Some (Ok a) -> text.truthy a = true.
Proof.
  induction 1 as [|[[rx key] template] qmap Ht _ IH]; simpl; [done|].
  destruct (re.search false rx s); [|exact IH].
  destruct (memory.recall key f) as [val|]; [|done].
  destruct (memory_bridge.is_truthy val) as [v|]; intros [= <-]; [apply Ht|reflexivity].
Qed.

Lemma QMAP_truthy :
  Forall (fun e : re.regex * string * (string -> string) =>
            forall v, text.truthy (snd e v) = true) memory_bridge.QMAP.
Proof. unfold memory_bridge.QMAP. repeat constructor. Qed.

(** X8. An answer that [memory_answer] gives is never the empty text, so
    the test [if ans:] of the loop takes the fast path exactly when
    [memory_answer] gives an answer. *)
Theorem X8_memory_answer_not_empty (txt a : string) f :
  memory_bridge.memory_answer f txt = Ok (Some a) ->
  text.truthy a = true /\ memory_bridge.is_truthy (Some a) = Some a.
Proof.
  intros H. assert (Ha : text.truthy a = true).
  { unfold memory_bridge.memory_answer in H.
    destruct (memory_bridge.answer_qmap f _ memory_bridge.QMAP) as [[a'|e]|] eqn:Hq.
    - injection H as ->. eapply answer_qmap_truthy; [apply QMAP_truthy|exact Hq].
    - done.
    - destruct (re.search false memory_bridge.generic_re _) as [m|]; [|done].
      destruct (memory.recall _ f) as [v1|]; [|done].
      destruct (match memory_bridge.is_truthy v1 with
                | Some _ => Ok v1
                | None => memory.recall _ f
                end) as [val|]; [|done].
      destruct (memory_bridge.is_truthy val); injection H as <-; reflexivity. }
  split; [exact Ha|]. simpl. by rewrite Ha.
Qed.

Lemma X8_memory_answer_not_empty_witness :
  memory_bridge.memory_answer demo.ben "What's my name?" = Ok (Some "Your name is Ben.") /\
  memory_bridge.is_truthy (Some "Your name is Ben.") = Some "Your name is Ben.".
Proof.
  assert (H : memory_bridge.memory_answer demo.ben "What's my name?"
              = Ok (Some "Your name is Ben.")) by (vm_compute; reflexivity).
  split; [exact H|].
  exact (proj2 (X8_memory_answer_not_empty "What's my name?" "Your name is Ben." demo.ben H)).
Defined.

(** ** The stages of one iteration *)

Section stages.
Context {Ext : Type}.
Implicit Types (s : context.state Ext).

Import context.

(** X9. The legacy block never serves an utterance: the expression
    [__import__("skills.registry", fromlist=["registry"]).registry] raises
    before any legacy skill is run, so when the legacy table has a rule
    for the utterance the block only prints the error line and reports
    nothing served, and no iteration ends at the legacy stage. *)
Theorem X9_legacy_never_serves s (raw user : string) :
  (exists tr,
     runtime.try_legacy user s
       = (Ok false, with_out (out s ++ LegacyRoute user :: tr) s) /\
     tr = match router.route user with
          | Some hit =>
              [Print ("Legacy skill '" +:+ router.name hit +:+ "' error: "
                      +:+ exn_str AttributeError +:+ ". Falling back to LLM.")]
          | None => []
          end) /\
  match fst (runtime.process_command raw s) with
  | Ok stg => stg <> runtime.Legacy
  | Raise _ => True
  end.
Proof.
  split.
  - unfold runtime.try_legacy, bind, emit, try_except, runtime.legacy_dispatch, ret.
    destruct (router.route user) as [legacy|].
    + eexists. split; [|reflexivity].
      cbv beta iota. f_equal. unfold with_out. cbn [out]. by rewrite <- app_assoc.
    + eexists. split; [|reflexivity]. reflexivity.
  - rewrite process_command_unfold. cbv zeta.
    destruct (admin.handle_skill_admin _ s) as [[[]|e] s1]; [done| |done].
    destruct (admin.handle_memory_admin _ s1) as [[[]|e] s2]; [done| |done].
    destruct (memory_bridge.memory_answer _ _) as [ans|e]; [|done].
    destruct (memory_bridge.is_truthy ans) as [a|].
    + rewrite say_stage_spec.
      by destruct (memory.append_conversation None (Some a) (mem s2)).
    + rewrite dispatch_unfold.
      destruct (memory.append_conversation _ None (mem s2)) as [f2|e]; [|done].
      destruct (runtime.try_plugin _ _) as [[[]|e] s3]; [done| |done].
      destruct (try_legacy_spec (runtime.command_text (wake s) raw) s3) as (tr & -> & _).
      by destruct (llm_path.llm_respond _ _) as [[[]|e] s5].
Qed.

(** the legacy block and the LLM: an iteration that gets there ends at the
    LLM stage or raises *)
Lemma tail_ends_at_llm user s3 :
  match (match runtime.try_legacy user s3 with
         | (Ok true, s4) => (Ok runtime.Legacy, s4)
         | (Ok false, s4) =>
             match llm_path.llm_respond user s4 with
             | (Ok _, s5) => (Ok runtime.Llm, s5)
             | (Raise e, s5) => (Raise e, s5)
             end
         | (Raise e, s4) => (Raise e, s4)
         end) with
  | (Ok stg, _) => stg = runtime.Llm
  | (Raise _, _) => True
  end.
Proof.
  destruct (try_legacy_spec user s3) as (tr & -> & _).
  by destruct (llm_path.llm_respond _ _) as [[[]|e] s5].
Qed.

(** X10. The LLM is the last resort: in an iteration that ends at any
    other stage (an admin command, the fast path, a skill) no call is made
    on the LLM session. *)
Theorem X10_llm_last_resort s (raw : string) (stg : runtime.stage) s' :
  runtime.process_command raw s = (Ok stg, s') ->
  stg <> runtime.Llm ->
  drivers.llm_calls (drivers.new_events s s') = [].
Proof.
  intros Hrun Hstg.
  destruct (front_cases raw s)
    as [(stg0 & txt & s1 & _ & Hout & _ & E)|[(e & E & _)|E]].
  - rewrite say_stage_spec in E. rewrite E in Hrun.
    destruct (memory.append_conversation None (Some txt) (mem s1)); [|done].
    injection Hrun as _ <-.
    erewrite new_events_app
      by (cbn [out with_mem drivers.spoken with_out]; rewrite Hout; reflexivity).
    unfold drivers.said. by autorewrite with trace.
  - rewrite E in Hrun. done.
  - rewrite dispatch_unfold in E.
    destruct (memory.append_conversation _ None (mem s)) as [f2|e] eqn:Hap.
    2: { rewrite E in Hrun. done. }
    rewrite try_plugin_spec in E. cbv zeta in E.
    change (router (with_mem f2 _)) with (router s) in E.
    change (mem (with_mem f2 _)) with f2 in E.
    change (ext (with_mem f2 _)) with (ext s) in E.
    destruct (plugins.route (router s) _) as [sk|].
    2: { exfalso.
         match type of E with
         | _ = match runtime.try_legacy ?u ?s3 with _ => _ end =>
             pose proof (tail_ends_at_llm u s3) as Hllm
         end.
         rewrite <- E, Hrun in Hllm. done. }
    destruct (plugins.run sk _ f2 (ext s)) as [[[result|e] f3] e3].
    2: { exfalso.
         match type of E with
         | _ = match runtime.try_legacy ?u ?s3 with _ => _ end =>
             pose proof (tail_ends_at_llm u s3) as Hllm
         end.
         rewrite <- E, Hrun in Hllm. done. }
    destruct (memory.append_conversation None (Some result) f3) as [f4|e].
    2: { exfalso.
         match type of E with
         | _ = match runtime.try_legacy ?u ?s3 with _ => _ end =>
             pose proof (tail_ends_at_llm u s3) as Hllm
         end.
         rewrite <- E, Hrun in Hllm. done. }
    rewrite E in Hrun. injection Hrun as _ <-.
    erewrite new_events_app
      by (unfold drivers.spoken; cbn [out with_mem with_out with_ext];
          rewrite <- !app_assoc; reflexivity).
    unfold drivers.said. by autorewrite with trace.
Qed.

End stages.

(** X10 on a greeting served by skills/hello.py *)
Lemma X10_llm_last_resort_witness :
  let st := demo.booted demo.tts_fine demo.ben demo.dir_hello in
  exists s',
    runtime.process_command "hello there" st = (Ok runtime.Plugin, s') /\
    drivers.llm_calls (drivers.new_events st s') = [].
Proof.
  intros st.
  assert (H : exists s', runtime.process_command "hello there" st = (Ok runtime.Plugin, s'))
    by (eexists; vm_compute; reflexivity).
  destruct H as [s' H]. exists s'. split; [exact H|].
  apply (X10_llm_last_resort st "hello there" runtime.Plugin s' H). discriminate.
Defined.

(** ** A store that can no longer be read *)

Section unreadable.
Context {Ext : Type}.
Implicit Types (s : context.state Ext).

Import context.

(** X11. Once the document behind the fact store cannot be read (the file
    was removed or corrupted after the start), the command part of the
    loop body ([process_command]: the handlers, the fast path and the
    stages) raises that read error on every utterance that reaches it:
    each of its paths reads the store before it ends, and none catches the
    error.  The controls and the wake logic that come before the command
    part are no part of this statement. *)
Theorem X11_unreadable_store_raises s (raw : string) (e : exn) :
  memory._read (mem s) = Raise e ->
  exists s', runtime.process_command raw s = (Raise e, s').
Proof.
  intros Hr. rewrite process_command_unfold. cbv zeta.
  destruct (skill_admin_cases (text.strip (text.lower (runtime.command_text (wake s) raw))) s)
    as [->|(txt & s1 & Hmem & _ & ->)].
  2: { rewrite say_true_spec, Hmem.
       rewrite (proj2 (proj2 (proj2 (read_raise_ops (mem s) e Hr)))). eauto. }
  destruct (memory_admin_raise
              (text.strip (text.lower (runtime.command_text (wake s) raw))) s e Hr)
    as [-> | ->]; [|eauto].
  destruct (memory_answer_raise (mem s) e (runtime.command_text (wake s) raw) Hr)
    as [-> | ->]; [|eauto].
  cbn [memory_bridge.is_truthy]. rewrite dispatch_unfold.
  rewrite (proj2 (proj2 (proj2 (read_raise_ops (mem s) e Hr)))). eauto.
Qed.

End unreadable.

(** X11 on a document corrupted after the start *)
Lemma X11_unreadable_store_raises_witness :
  exists s',
    runtime.process_command "what's my name?"
      (context.with_mem memory.Malformed
         (demo.booted demo.tts_fine demo.ben demo.dir_hello))
    = (Raise JSONDecodeError, s').
Proof.
  apply (X11_unreadable_store_raises
           (context.with_mem memory.Malformed
              (demo.booted demo.tts_fine demo.ben demo.dir_hello))
           "what's my name?" JSONDecodeError).
  reflexivity.
Defined.

(** ** The last turns of the log *)

(** X12. On a readable store [recent(n)] gives the last [n] turns of the
    log for [n >= 1] (the whole log when it is shorter); [recent(0)]
    gives the whole log, not the empty list, since [conv[-0:]] is
    [conv[0:]]; and for a negative [n] it gives the log without its first
    [-n] turns. *)
Theorem X12_recent (f : memory.disk_file) (d : memory.document) :
  memory._read f = Ok d ->
  (forall n, (0 < n)%Z ->
     memory.recent n f = Ok (memory.last_n (Z.to_nat n) (memory.conversations_of d))) /\
  memory.recent 0 f = Ok (memory.conversations_of d) /\
  (forall n, (n < 0)%Z ->
     memory.recent n f = Ok (drop (Z.to_nat (- n)) (memory.conversations_of d))).
Proof.
  intros Hr. unfold memory.recent, memory.slice_from. rewrite Hr.
  split; [|split].
  - intros n Hn. unfold memory.last_n.
    destruct (- n <? 0)%Z eqn:E; [|apply Z.ltb_ge in E; lia].
    replace (Z.to_nat (Z.max (Z.of_nat (length (memory.conversations_of d)) + - n) 0))
      with (length (memory.conversations_of d) - Z.to_nat n) by lia.
    reflexivity.
  - change (- 0 <? 0)%Z with false. cbv iota.
    replace (Z.to_nat (Z.min (- 0) (Z.of_nat (length (memory.conversations_of d)))))
      with 0 by lia.
    reflexivity.
  - intros n Hn.
    destruct (- n <? 0)%Z eqn:E; [apply Z.ltb_lt in E; lia|].
    destruct (decide (Z.to_nat (- n) <= length (memory.conversations_of d))) as [Hle|Hgt].
    + replace (Z.to_nat (Z.min (- n) (Z.of_nat (length (memory.conversations_of d)))))
        with (Z.to_nat (- n)) by lia.
      reflexivity.
    + rewrite !drop_ge by lia. reflexivity.
Qed.

Lemma X12_recent_witness :
  let log := [memory.Turn (Some "a") None; memory.Turn None (Some "b");
              memory.Turn (Some "c") None] in
  let f := memory.Stored (memory.Doc (Some []) (Some log)) in
  memory.recent 2 f = Ok [memory.Turn None (Some "b"); memory.Turn (Some "c") None] /\
  memory.recent 0 f = Ok log /\
  memory.recent 5 f = Ok log.
Proof.
  intros log f.
  destruct (X12_recent f (memory.Doc (Some []) (Some log)) eq_refl) as (H1 & H2 & _).
  split; [rewrite H1 by lia; reflexivity|].
  split; [exact H2|]. rewrite H1 by lia. reflexivity.
Defined.

(** ** Stripped text *)

Lemma rstrip_by_idem (p : ascii -> bool) (s : string) :
  text.rstrip_by p (text.rstrip_by p s) = text.rstrip_by p s.
Proof.
  induction s as [|c s IH]; [done|]. cbn [text.rstrip_by].
  destruct (text.rstrip_by p s) as [|c' t] eqn:E.
  - destruct (p c) eqn:Ec; [done|]. cbn [text.rstrip_by]. by rewrite Ec.
  - cbn [text.rstrip_by]. cbn [text.rstrip_by] in IH. by rewrite IH.
Qed.

(** what [lstrip] leaves is empty or starts with a character it keeps *)
Lemma lstrip_by_head (p : ascii -> bool) (s : string) :
  match text.lstrip_by p s with
  | EmptyString => True
  | String c _ => p c = false
  end.
Proof.
  induction s as [|c s IH]; [done|]. cbn [text.lstrip_by].
  destruct (p c) eqn:Ec; [exact IH|exact Ec].
Qed.

(** [rstrip] keeps a first character that it would not strip *)
Lemma rstrip_by_head (p : ascii -> bool) (c : ascii) (s : string) :
  p c = false -> exists t, text.rstrip_by p (String c s) = String c t.
Proof.
  intros Ec. cbn [text.rstrip_by].
  destruct (text.rstrip_by p s); [rewrite Ec|]; eauto.
Qed.

Lemma strip_idem (s : string) : text.strip (text.strip s) = text.strip s.
Proof.
  unfold text.strip.
  pose proof (lstrip_by_head text.is_space s) as H.
  destruct (text.lstrip_by text.is_space s) as [|c t] eqn:E; [done|].
  destruct (rstrip_by_head text.is_space c t H) as [t' Ht'].
  rewrite Ht'. cbn [text.lstrip_by]. rewrite H. rewrite <- Ht'. apply rstrip_by_idem.
Qed.

Lemma strip_truthy_head (s : string) :
  text.truthy (text.strip s) = true ->
  exists c t, text.strip s = String c t /\ text.is_space c = false.
Proof.
  unfold text.strip.
  pose proof (lstrip_by_head text.is_space s) as H.
  destruct (text.lstrip_by text.is_space s) as [|c t] eqn:E; [done|].
  destruct (rstrip_by_head text.is_space c t H) as [t' Ht'].
  rewrite Ht'. eauto.
Qed.

Lemma list_ascii_app (a b : string) :
  list_ascii_of_string (a +:+ b) = list_ascii_of_string a ++ list_ascii_of_string b.
Proof. induction a as [|c a IH]; simpl; [done|]. by rewrite IH. Qed.

(** the words of [split()] are not empty and hold no white space *)
Lemma split_ws_from_words (s : string) (cur : option string) :
  (forall w, cur = Some w ->
     text.truthy w = true /\
     Forall (fun c => text.is_space c = false) (list_ascii_of_string w)) ->
  Forall (fun w => text.truthy w = true /\
                   Forall (fun c => text.is_space c = false) (list_ascii_of_string w))
         (text.split_ws_from cur s).
Proof.
  revert cur. induction s as [|c s IH]; intros cur Hcur; cbn [text.split_ws_from].
  - destruct cur as [w|]; [|constructor]. constructor; [by apply Hcur|constructor].
  - destruct (text.is_space c) eqn:Ec.
    + destruct cur as [w|].
      * constructor; [by apply Hcur|]. by apply IH.
      * by apply IH.
    + apply IH. intros w [= <-]. destruct cur as [w0|].
      * destruct (Hcur w0 eq_refl) as [Hw0 Hall]. split.
        -- by destruct w0.
        -- rewrite list_ascii_app. apply Forall_app. split; [done|].
           simpl. by constructor.
      * split; [done|]. simpl. by constructor.
Qed.

Lemma rstrip_by_none (p : ascii -> bool) (s : string) :
  Forall (fun c => p c = false) (list_ascii_of_string s) -> text.rstrip_by p s = s.
Proof.
  induction s as [|c s IH]; [done|]. simpl. intros [Hc Hs]%Forall_cons.
  rewrite (IH Hs). destruct s; [by rewrite Hc|done].
Qed.

Lemma strip_word (w : string) :
  Forall (fun c => text.is_space c = false) (list_ascii_of_string w) -> text.strip w = w.
Proof.
  intros H. unfold text.strip. destruct w as [|c w]; [done|].
  cbn [text.lstrip_by]. simpl in H. apply Forall_cons in H as [Hc Hw].
  rewrite Hc. apply rstrip_by_none. simpl. by constructor.
Qed.

(** ** skills/registry.py *)

(** X13. Whatever follows [remember:], the key that [_parse_remember]
    gives is never empty, and neither the key nor the value has white
    space at its ends; a blank text gives the pair [("note", "")]. *)
Theorem X13_parse_remember (rest : string) :
  text.truthy (fst (registry._parse_remember rest)) = true /\
  text.strip (fst (registry._parse_remember rest)) = fst (registry._parse_remember rest) /\
  text.strip (snd (registry._parse_remember rest)) = snd (registry._parse_remember rest) /\
  (text.strip rest = "" -> registry._parse_remember rest = ("note", "")).
Proof.
  unfold registry._parse_remember.
  destruct (text.truthy (text.strip rest)) eqn:Es; cbn [negb].
  2: { repeat split; try done. }
  assert (Hne : text.strip rest = "" -> False) by (intros E; by rewrite E in Es).
  destruct (text.contains "=" (text.strip rest)).
  - destruct (text.split1 "=" (text.strip rest)) as [k v]. cbn [fst snd].
    split; [|split; [|split]].
    + by destruct (text.truthy (text.strip k)) eqn:Ek.
    + destruct (text.truthy (text.strip k)); [apply strip_idem|done].
    + apply strip_idem.
    + intros E. by destruct (Hne E).
  - pose proof (split_ws_from_words (text.strip rest) None) as Hw.
    unfold text.split_ws.
    destruct (text.split_ws_from None (text.strip rest)) as [|p0 [|p1 parts]].
    + cbn [fst snd]. split; [done|]. split; [done|]. split; [apply strip_idem|].
      intros E. by destruct (Hne E).
    + cbn [fst snd]. split; [done|]. split; [done|]. split; [apply strip_idem|].
      intros E. by destruct (Hne E).
    + cbn [fst snd]. specialize (Hw ltac:(done)).
      apply Forall_cons in Hw as [[Hp0 Hall] _].
      rewrite (strip_word p0 Hall).
      split; [done|]. split; [by rewrite (strip_word p0 Hall)|].
      split; [apply strip_idem|]. intros E. by destruct (Hne E).
Qed.

(** ** The order in which the facts are listed *)

Lemma nat_of_ascii_inj (x y : ascii) : nat_of_ascii x = nat_of_ascii y -> x = y.
Proof.
  intros H. rewrite <- (ascii_nat_embedding x), <- (ascii_nat_embedding y). by rewrite H.
Qed.

Lemma ltb_asym (a b : string) : text.ltb a b = true -> text.ltb b a = false.
Proof.
  revert b. induction a as [|x a IH]; intros [|y b]; simpl; try done.
  destruct (nat_of_ascii x <? nat_of_ascii y)%nat eqn:E1;
    destruct (nat_of_ascii y <? nat_of_ascii x)%nat eqn:E2; try done.
  - apply Nat.ltb_lt in E1, E2. lia.
  - apply IH.
Qed.

Lemma ltb_irrefl (a : string) : text.ltb a a = false.
Proof.
  induction a as [|x a IH]; simpl; [done|]. by rewrite Nat.ltb_irrefl.
Qed.

(** neither below the other: the same text *)
Lemma ltb_antisym (a b : string) :
  text.ltb a b = false -> text.ltb b a = false -> a = b.
Proof.
  revert b. induction a as [|x a IH]; intros [|y b]; simpl; try done.
  destruct (nat_of_ascii x <? nat_of_ascii y)%nat eqn:E1;
    destruct (nat_of_ascii y <? nat_of_ascii x)%nat eqn:E2; try done.
  intros H1 H2. apply Nat.ltb_ge in E1, E2.
  f_equal; [apply nat_of_ascii_inj; lia|by apply IH].
Qed.

(** not above, twice: not above *)
Lemma leb_trans (a b c : string) :
  text.ltb b a = false -> text.ltb c b = false -> text.ltb c a = false.
Proof.
  revert b c. induction a as [|x a IH]; intros [|y b] [|z c]; simpl; try done.
  intros H1 H2.
  destruct (Nat.ltb_spec (nat_of_ascii y) (nat_of_ascii x)) as [L1|L1]; [done|].
  destruct (Nat.ltb_spec (nat_of_ascii z) (nat_of_ascii y)) as [L2|L2]; [done|].
  destruct (Nat.ltb_spec (nat_of_ascii z) (nat_of_ascii x)) as [L3|L3]; [lia|].
  destruct (Nat.ltb_spec (nat_of_ascii x) (nat_of_ascii z)) as [L4|L4]; [done|].
  destruct (Nat.ltb_spec (nat_of_ascii x) (nat_of_ascii y)) as [L5|L5]; [lia|].
  destruct (Nat.ltb_spec (nat_of_ascii y) (nat_of_ascii z)) as [L6|L6]; [lia|].
  by apply (IH b c).
Qed.

Lemma pair_ltb_false (a b : string * string) :
  admin.pair_ltb b a = false <->
  text.ltb (fst b) (fst a) = false /\ (fst b = fst a -> text.ltb (snd b) (snd a) = false).
Proof.
  unfold admin.pair_ltb. rewrite orb_false_iff, andb_false_iff. split.
  - intros [H1 [H2|H2]]; split; try done.
    intros E. rewrite E, String.eqb_refl in H2. done.
  - intros [H1 H2]. split; [done|].
    destruct (String.eqb_spec (fst b) (fst a)) as [E|E]; [right; by apply H2|by left].
Qed.

Lemma pair_le_trans (a b c : string * string) :
  admin.pair_ltb b a = false -> admin.pair_ltb c b = false -> admin.pair_ltb c a = false.
Proof.
  rewrite !pair_ltb_false. intros [H1 H2] [H3 H4].
  split; [by eapply leb_trans|]. intros E.
  assert (fst b = fst a) as Eb.
  { apply ltb_antisym; [done|]. by rewrite <- E. }
  eapply leb_trans; [by apply H2|]. apply H4. by rewrite E, Eb.
Qed.

Lemma pair_ltb_asym (a b : string * string) :
  admin.pair_ltb a b = true -> admin.pair_ltb b a = false.
Proof.
  unfold admin.pair_ltb. intros H. apply orb_false_iff.
  apply orb_true_iff in H as [H|[E H]%andb_true_iff].
  - split; [by apply ltb_asym|]. apply andb_false_iff.
    destruct (String.eqb_spec (fst b) (fst a)) as [E|E]; [|by left].
    rewrite E, ltb_irrefl in H. done.
  - apply String.eqb_eq in E. rewrite E. split; [apply ltb_irrefl|].
    apply andb_false_iff. right. by apply ltb_asym.
Qed.

Lemma insert_sorted_perm (x : string * string) (l : list (string * string)) :
  admin.insert_sorted x l ≡ₚ x :: l.
Proof.
  induction l as [|y l IH]; simpl; [done|].
  destruct (admin.pair_ltb x y); [done|]. rewrite IH. apply Permutation_swap.
Qed.

Lemma insert_sorted_sorted (x : string * string) (l : list (string * string)) :
  StronglySorted (fun a b => admin.pair_ltb b a = false) l ->
  StronglySorted (fun a b => admin.pair_ltb b a = false) (admin.insert_sorted x l).
Proof.
  induction 1 as [|y l Hl IH Hy]; simpl; [repeat constructor|].
  destruct (admin.pair_ltb x y) eqn:E.
  - constructor; [by constructor|]. constructor; [by apply pair_ltb_asym|].
    eapply Forall_impl; [exact Hy|]. intros z Hz. cbv beta in *.
    eapply pair_le_trans; [|exact Hz]. by apply pair_ltb_asym.
  - constructor; [exact IH|]. rewrite insert_sorted_perm. by constructor.
Qed.

(** [sorted(pairs)] gives the same pairs in ascending order *)
Lemma sorted_spec (l : list (string * string)) :
  admin.sorted l ≡ₚ l /\
  StronglySorted (fun a b => admin.pair_ltb b a = false) (admin.sorted l).
Proof.
  unfold admin.sorted.
  assert (H : forall acc,
    StronglySorted (fun a b => admin.pair_ltb b a = false) acc ->
    fold_left (fun acc x => admin.insert_sorted x acc) l acc ≡ₚ l ++ acc /\
    StronglySorted (fun a b => admin.pair_ltb b a = false)
      (fold_left (fun acc x => admin.insert_sorted x acc) l acc)).
  { induction l as [|x l IH]; intros acc Hacc; simpl; [done|].
    destruct (IH (admin.insert_sorted x acc)) as [H1 H2];
      [by apply insert_sorted_sorted|].
    split; [|done]. rewrite H1, insert_sorted_perm. symmetry. apply Permutation_middle. }
  destruct (H []) as [H1 H2]; [constructor|]. split; [|done].
  by rewrite H1, app_nil_r.
Qed.

Lemma facts_like_all f d :
  memory._read f = Ok d -> memory.facts_like "" f = Ok (memory.facts_of d).
Proof.
  intros Hr. unfold memory.facts_like. rewrite Hr. f_equal.
  apply list_filter_all. intros [k v]. cbn. by rewrite contains_empty.
Qed.

Section listing_memory.
Context {Ext : Type}.
Implicit Types (s : context.state Ext).

Import context.

(** X14. On [list memory] (or one of its three other wordings) with a
    readable store that holds facts, the handler says one reply: the
    heading and then one row per fact, the facts taken in ascending order
    of their (key, value) pairs, each as often as the store has it, and
    only the first 50 rows. *)
Theorem X14_memory_listing s (low : string) (d : memory.document) :
  is_Some (re.fullmatch true admin.MEM_LIST_RE low) ->
  memory._read (mem s) = Ok d ->
  memory.facts_of d <> [] ->
  exists srt,
    srt ≡ₚ memory.facts_of d /\
    StronglySorted (fun a b => admin.pair_ltb b a = false) srt /\
    admin.handle_memory_admin low s =
      (do say ("Memory facts:" +:+ String text.nl "" +:+
               text.join (String text.nl "")
                 (take 50 (map (fun kv => "• " +:+ admin.show_key (fst kv)
                                          +:+ ": " +:+ snd kv) srt)))
       then ret true) s.
Proof.
  intros [m Hm] Hr Hne. exists (admin.sorted (memory.facts_of d)).
  destruct (sorted_spec (memory.facts_of d)) as [H1 H2].
  split; [exact H1|]. split; [exact H2|].
  unfold admin.handle_memory_admin. rewrite Hm.
  rewrite bind_mem_read, (facts_like_all _ d Hr).
  by destruct (memory.facts_of d).
Qed.

End listing_memory.

Lemma X14_memory_listing_witness :
  let st := context.with_mem
              (memory.Stored (memory.Doc (Some [("role", "dev"); ("home_city", "Austin")])
                                         (Some [])))
              (demo.booted demo.tts_fine demo.ben demo.dir_hello) in
  exists srt,
    srt ≡ₚ [("role", "dev"); ("home_city", "Austin")] /\
    StronglySorted (fun a b => admin.pair_ltb b a = false) srt /\
    admin.handle_memory_admin "list memory." st =
      context.bind
        (context.say ("Memory facts:" +:+ String text.nl "" +:+
               text.join (String text.nl "")
                 (take 50 (map (fun kv => "• " +:+ admin.show_key (fst kv)
                                          +:+ ": " +:+ snd kv) srt))))
        (fun _ => context.ret true) st.
Proof.
  intros st.
  apply (X14_memory_listing st "list memory."
           (memory.Doc (Some [("role", "dev"); ("home_city", "Austin")]) (Some []))).
  - vm_compute. eexists. reflexivity.
  - reflexivity.
  - discriminate.
Defined.
